(** * Cloud migration pipeline: the execution script [run_migration.py]

    A shallow embedding of [main] of [src/run_migration.py] and of the
    pipeline object it drives.  The script is a thin shell around the class
    [CloudMigrationPipeline]: it builds the pipeline from the configuration
    file, optionally narrows [pipeline.data_sources] to the tables named on
    the command line, and then either validates every active table or runs
    the full migration, mapping the outcome to the return value 0 or 1.

    Python dictionaries are finite maps from strings to Python values,
    exceptions are an explicit error result, and the mutable world reached
    through the pipeline object (connections, source and target stores) is
    threaded through a state-and-error monad together with a trace of the
    method calls and log records the script makes. *)

From stdpp Require Import gmap strings list pretty.

Set Default Proof Using "Type".
Open Scope Z_scope.

(** ** Python values *)

(** The values that flow through [main]: table names, flags, counts. *)
Inductive pyval :=
  | PNone
  | PBool (b : bool)
  | PInt (z : Z)
  | PStr (s : string).

#[global] Instance pyval_eq_dec : EqDecision pyval.
Proof. solve_decision. Defined.

(** [bool(v)]: the truth value Python's [if], [not] and [all] look at. *)
Definition truthy (v : pyval) : bool :=
  match v with
  | PNone => false
  | PBool b => b
  | PInt z => negb (z =? 0)
  | PStr s => negb (String.eqb s EmptyString)
  end.

(** [a == b]; [bool] is a subclass of [int], so [True == 1]. *)
Definition py_eq (a b : pyval) : bool :=
  match a, b with
  | PNone, PNone => true
  | PBool x, PBool y => Bool.eqb x y
  | PInt x, PInt y => x =? y
  | PBool x, PInt y => Z.b2z x =? y
  | PInt x, PBool y => x =? Z.b2z y
  | PStr x, PStr y => String.eqb x y
  | _, _ => false
  end.

(** [v in names] for a list of strings, as [argparse] builds for
    [--tables]: the first element equal to [v] decides. *)
Definition py_in (v : pyval) (names : list string) : bool :=
  existsb (fun n => py_eq v (PStr n)) names.

(** [str(v)], what an f-string prints for [v]. *)
Definition py_str (v : pyval) : string :=
  match v with
  | PNone => "None"
  | PBool true => "True"
  | PBool false => "False"
  | PInt z => pretty z
  | PStr s => s
  end.

Definition py_type_name (v : pyval) : string :=
  match v with
  | PNone => "NoneType"
  | PBool _ => "bool"
  | PInt _ => "int"
  | PStr _ => "str"
  end.

(** A Python [dict] with string keys: a data-source entry of the
    configuration, or the result of a validation. *)
Abbreviation dict := (gmap string pyval).

(** ** Exceptions *)

(** Raised exceptions.  [KeyError] (of a string key) and [TypeError] are
    the built-in ones that [main]'s own expressions raise; [Raised cls msg]
    is an exception
    of the class named [cls] raised inside the pipeline, with [msg] the
    text [str] gives for it.  Whether [cls] derives from [Exception] is for
    the class hierarchy to say: see [is_exception] below. *)
Inductive exn :=
  | KeyError (key : string)
  | TypeError (msg : string)
  | Raised (cls msg : string).

(** [repr(s)] for a string whose characters are the code points below
    256: the quote is a double quote when [s] holds a single quote and no
    double quote, a single quote otherwise; the backslash, the chosen quote,
    tab, newline and carriage return are escaped by a backslash, and every
    other character that is not printable is written in hexadecimal. *)
Definition single_quote : Ascii.ascii := Ascii.ascii_of_N 39.
Definition double_quote : Ascii.ascii := Ascii.ascii_of_N 34.
Definition backslash : Ascii.ascii := Ascii.ascii_of_N 92.

Definition hex_digit (n : N) : Ascii.ascii :=
  if (n <? 10)%N then Ascii.ascii_of_N (48 + n) else Ascii.ascii_of_N (87 + n).

Fixpoint contains (c : Ascii.ascii) (s : string) : bool :=
  match s with
  | EmptyString => false
  | String c' rest => Ascii.eqb c c' || contains c rest
  end.

Definition repr_quote (s : string) : Ascii.ascii :=
  if contains single_quote s && negb (contains double_quote s)
  then double_quote else single_quote.

Definition printable (n : N) : bool :=
  ((32 <=? n) && (n <? 127) || (161 <=? n) && negb (n =? 173))%N.

Definition repr_char (quote c : Ascii.ascii) : string :=
  let n := Ascii.N_of_ascii c in
  if Ascii.eqb c backslash then String backslash (String backslash EmptyString)
  else if Ascii.eqb c quote then String backslash (String quote EmptyString)
  else if (n =? 9)%N then String backslash "t"
  else if (n =? 10)%N then String backslash "n"
  else if (n =? 13)%N then String backslash "r"
  else if printable n then String c EmptyString
  else String backslash
         ("x" +:+ String (hex_digit (n / 16))
                    (String (hex_digit (n mod 16)) EmptyString)).

Fixpoint repr_body (quote : Ascii.ascii) (s : string) : string :=
  match s with
  | EmptyString => EmptyString
  | String c rest => repr_char quote c +:+ repr_body quote rest
  end.

Definition py_repr (s : string) : string :=
  let quote := repr_quote s in
  String quote (repr_body quote s +:+ String quote EmptyString).

(** [str(e)]: a [KeyError] prints the [repr] of its key. *)
Definition exn_str (e : exn) : string :=
  match e with
  | KeyError k => py_repr k
  | TypeError m => m
  | Raised _ m => m
  end.

(** The result of evaluating an expression: a value or a raised exception. *)
Inductive res (A : Type) :=
  | Ok (a : A)
  | Raise (e : exn).
Arguments Ok {A} a.
Arguments Raise {A} e.

Definition is_ok {A} (r : res A) : bool :=
  match r with Ok _ => true | Raise _ => false end.

(** [d[k]] *)
Definition getitem (d : dict) (k : string) : res pyval :=
  match d !! k with
  | Some v => Ok v
  | None => Raise (KeyError k)
  end.

(** [d.get(k, default)] *)
Definition dict_get (d : dict) (k : string) (default : pyval) : pyval :=
  match d !! k with
  | Some v => v
  | None => default
  end.

(** [sep.join(l)]: every item must be a [str]. *)
Fixpoint py_join_from (i : nat) (sep : string) (l : list pyval) : res string :=
  match l with
  | [] => Ok EmptyString
  | v :: rest =>
      match v with
      | PStr s =>
          match rest with
          | [] => Ok s
          | _ :: _ =>
              match py_join_from (S i) sep rest with
              | Ok tl => Ok (s +:+ sep +:+ tl)
              | Raise e => Raise e
              end
          end
      | _ => Raise (TypeError ("sequence item " +:+ pretty i
                               +:+ ": expected str instance, "
                               +:+ py_type_name v +:+ " found"))
      end
  end.

Definition py_join (sep : string) (l : list pyval) : res string :=
  py_join_from 0 sep l.

(** ** The command line *)

(** The namespace [argparse] produces.  [--tables] takes one or more names
    ([nargs='+']); without the option [args.tables] is [None]. *)
Record args := {
  config : string;
  validate_only : bool;
  tables : option (list string)
}.

(** [bool(args.tables)]: [None] and the empty list are false. *)
Definition tables_given (a : args) : bool :=
  match tables a with
  | Some (_ :: _) => true
  | _ => false
  end.

Definition table_names (a : args) : list string :=
  default [] (tables a).

(** ** The pipeline object and what [main] can observe *)

(** The one attribute of the pipeline object that [main] reads and assigns.
    Everything else the object owns lives in the world state below. *)
Record pipeline := { data_sources : list dict }.

Inductive level := INFO | ERROR.

(** What happened during a run, oldest first: the records handed to the
    logger and the completed calls into the pipeline with their outcome. *)
Inductive event :=
  | Log (lv : level) (msg : string)
  | Init (config_file : string) (ret : res pipeline)
  | Connect (ret : res pyval)
  | Validate (table_name : pyval) (ret : res dict)
  | RunMigration (ret : res pyval).

(** The interface of [CloudMigrationPipeline] that the script uses.  [W] is
    the mutable world behind the object: its private attributes, the
    connections, the source and the target store.  A method that raises may
    still have changed the world. *)
Class PipelineAPI (W : Type) := {
  CloudMigrationPipeline : string -> W -> res pipeline * W;
  connect_to_source_db : pipeline -> W -> res pyval * W;
  validate_migration : pipeline -> pyval -> W -> res dict * W;
  run_migration : pipeline -> W -> res pyval * W
}.

(** ** The state-and-error monad of the script *)

Record state (W : Type) := State { world : W; trace : list event }.
Arguments State {W} world trace.
Arguments world {W} s.
Arguments trace {W} s.

Definition M (W A : Type) : Type := state W -> res A * state W.

#[global] Instance M_ret {W} : MRet (M W) := fun A a st => (Ok a, st).
#[global] Instance M_bind {W} : MBind (M W) := fun A B f m st =>
  match m st with
  | (Ok a, st') => f a st'
  | (Raise e, st') => (Raise e, st')
  end.

(** A pure expression that may raise. *)
Definition lift {W A} (r : res A) : M W A := fun st => (r, st).

(** [try: body except Exception as e: handler(e)] when every raised
    exception derives from [Exception]; [try_except_Exception] below has the
    test of the class. *)
Definition try_except {W A} (body : M W A) (handler : exn -> M W A) : M W A :=
  fun st =>
    match body st with
    | (Ok a, st') => (Ok a, st')
    | (Raise e, st') => handler e st'
    end.

Definition emit {W} (ev : event) : M W unit :=
  fun st => (Ok tt, State (world st) (trace st ++ [ev])).

(** A method call on the pipeline: it acts on the world, and the completed
    call is appended to the trace. *)
Definition invoke {W A} (ev : res A -> event) (m : W -> res A * W) : M W A :=
  fun st =>
    let '(r, w) := m (world st) in
    (r, State w (trace st ++ [ev r])).

Definition logger_info {W} (msg : string) : M W unit := emit (Log INFO msg).
Definition logger_error {W} (msg : string) : M W unit := emit (Log ERROR msg).
(** [logger.exception] logs at level ERROR. *)
Definition logger_exception {W} (msg : string) : M W unit := emit (Log ERROR msg).

(** ** [main] *)

Section Main.
Context {W : Type} `{!PipelineAPI W}.

(** Lines 52-53: [[s for s in all_sources if s['table'] in args.tables]].
    The comprehension walks the list in order and raises [KeyError] at the
    first entry without a ['table'] key. *)
Fixpoint filter_sources (all_sources : list dict) (names : list string)
    : res (list dict) :=
  match all_sources with
  | [] => Ok []
  | s :: rest =>
      match getitem s "table" with
      | Raise e => Raise e
      | Ok t =>
          match filter_sources rest names with
          | Raise e => Raise e
          | Ok kept => Ok (if py_in t names then s :: kept else kept)
          end
      end
  end.

(** Lines 50-54: the filter step, run only when [args.tables] is true. *)
Definition filter_step (a : args) (p : pipeline) : M W pipeline :=
  if tables_given a then
    let all_sources := data_sources p in
    kept ← lift (filter_sources all_sources (table_names a));
    logger_info ("Filtered migration to tables: "
                 +:+ String.concat ", " (table_names a));;
    mret {| data_sources := kept |}
  else mret p.

(** Lines 63-68: the validation loop, appending to [validation_results]. *)
Fixpoint validate_loop (p : pipeline) (sources : list dict)
    (validation_results : list dict) : M W (list dict) :=
  match sources with
  | [] => mret validation_results
  | source :: rest =>
      table_name ← lift (getitem source "table");
      logger_info ("Validating table: " +:+ py_str table_name);;
      result ← invoke (Validate table_name) (validate_migration p table_name);
      validate_loop p rest (validation_results ++ [result])
  end.

(** [r.get('validation_passed', False)] as a truth value. *)
Definition passed (r : dict) : bool :=
  truthy (dict_get r "validation_passed" (PBool false)).

(** Line 70: [all(r.get('validation_passed', False) for r in ...)]. *)
Definition all_passed (validation_results : list dict) : bool :=
  forallb passed validation_results.

(** Line 75: [[r['table_name'] for r in validation_results if not ...]]. *)
Fixpoint failed_tables (validation_results : list dict) : res (list pyval) :=
  match validation_results with
  | [] => Ok []
  | r :: rest =>
      if negb (passed r) then
        match getitem r "table_name" with
        | Raise e => Raise e
        | Ok t =>
            match failed_tables rest with
            | Raise e => Raise e
            | Ok l => Ok (t :: l)
            end
        end
      else failed_tables rest
  end.

(** Lines 70-77: the verdict over the collected results. *)
Definition validation_verdict (validation_results : list dict) : M W Z :=
  let success := all_passed validation_results in
  if success then
    logger_info "All validations passed successfully!";;
    mret 0
  else
    failed ← lift (failed_tables validation_results);
    joined ← lift (py_join ", " failed);
    logger_error ("Validation failed for tables: " +:+ joined);;
    mret 1.

(** Lines 44-89: the body of the [try]. *)
Definition main_body (a : args) : M W Z :=
  logger_info ("Starting migration with config file: " +:+ config a);;
  pipeline ← invoke (Init (config a)) (CloudMigrationPipeline (config a));
  pipeline ← filter_step a pipeline;
  if validate_only a then
    logger_info "Running validation only mode";;
    connected ← invoke Connect (connect_to_source_db pipeline);
    if negb (truthy connected) then
      logger_error "Failed to connect to source database";;
      mret 1
    else
      validation_results ← validate_loop pipeline (data_sources pipeline) [];
      validation_verdict validation_results
  else
    logger_info "Running full migration process";;
    success ← invoke RunMigration (run_migration pipeline);
    if negb (truthy success) then
      logger_error "Migration process failed";;
      mret 1
    else
      logger_info "Migration completed successfully";;
      mret 0.

(** Lines 42-93, for a pipeline all of whose exceptions derive from
    [Exception], which the handler then always catches; [main_py] below
    is the function for any pipeline. *)
Definition main (a : args) : M W Z :=
  try_except (main_body a)
    (fun e =>
       logger_exception ("Migration failed with error: " +:+ exn_str e);;
       mret 1).

(** Lines 95-97: [sys.exit(main())] from a fresh start in world [w]. *)
Definition run (a : args) (w : W) : res Z * state W :=
  main a (State w []).

Definition exit_status (a : args) (w : W) : Z :=
  match (run a w).1 with
  | Ok code => code
  | Raise _ => 1
  end.

End Main.

(** ** The pipeline class

    [src/migration_pipeline.py], the module that defines
    [CloudMigrationPipeline], is not part of the sources at hand; only its
    caller [run_migration.py] is.  The definitions of this module follow the
    written specification of the orchestrator and of its components. *)

Module Orchestrator.

(** Modelled from the spec: the terminal states a table of the missing
    orchestrator can end in. *)
Inductive status := succeeded | failed | skipped.

#[global] Instance status_eq_dec : EqDecision status.
Proof. solve_decision. Defined.

(** Modelled from the spec: the MigrationResult record of the missing
    [migration_pipeline] module (table identifier, status, rows migrated,
    error detail present iff failed; the timestamps are left out). *)
Record MigrationResult := {
  mr_table : pyval;
  mr_status : status;
  rows_migrated : nat;
  error_detail : option exn
}.

(** Modelled from the spec: the ValidationResult record of the missing
    [migration_pipeline] module. *)
Record ValidationResult := {
  vr_table : pyval;
  validation_passed : bool;
  source_count : Z;
  target_count : Z;
  diagnostic : string
}.

(** Modelled from the spec: the dictionary shape in which the missing
    [validate_migration] hands a ValidationResult to its caller; the keys
    ['table_name'] and ['validation_passed'] are the ones [main] reads. *)
Definition to_dict (v : ValidationResult) : dict :=
  <["table_name" := vr_table v]>
    (<["validation_passed" := PBool (validation_passed v)]>
       (<["source_count" := PInt (source_count v)]>
          (<["target_count" := PInt (target_count v)]>
             (<["diagnostic" := PStr (diagnostic v)]> ∅)))).

(** Modelled from the spec: the components the missing orchestrator
    drives, over an abstract source store [Src], target store [Tgt] and
    row type [Row].  Extraction and validation read the stores and cannot
    change them; only [load] returns a new target store.  [load] reports
    the rows committed, with the error when a batch failed part-way. *)
Record components (Src Tgt Row : Type) := {
  read_config : string -> res (list dict);
  connect : Src -> res unit;
  extract : dict -> Src -> res (list Row);
  apply : Row -> dict -> res Row;
  load : dict -> list Row -> Tgt -> (nat * option exn) * Tgt;
  validate : pyval -> Src -> Tgt -> ValidationResult
}.
Arguments read_config {Src Tgt Row} c.
Arguments connect {Src Tgt Row} c.
Arguments extract {Src Tgt Row} c.
Arguments apply {Src Tgt Row} c.
Arguments load {Src Tgt Row} c.
Arguments validate {Src Tgt Row} c.

(** Modelled from the spec: the world the missing pipeline object acts
    on: both stores, whether the source handle is live, and the results
    recorded so far. *)
Record backend (Src Tgt : Type) := Backend {
  source : Src;
  target : Tgt;
  source_handle : bool;
  migration_results : list MigrationResult;
  validation_results : list ValidationResult
}.
Arguments Backend {Src Tgt}.
Arguments source {Src Tgt} b.
Arguments target {Src Tgt} b.
Arguments source_handle {Src Tgt} b.
Arguments migration_results {Src Tgt} b.
Arguments validation_results {Src Tgt} b.

Section Pipeline.
Context {Src Tgt Row : Type} (C : components Src Tgt Row).

(** Modelled from the spec: a structurally valid data-source entry of
    the missing configuration loader names its table by a string. *)
Definition valid_source (s : dict) : bool :=
  match s !! "table" with
  | Some (PStr _) => true
  | _ => false
  end.

(** Modelled from the spec: [load(configSource)] of the missing
    orchestrator: it fails with ConfigError on an invalid entry. *)
Definition load_config (cfg : string) : res (list dict) :=
  match read_config C cfg with
  | Raise e => Raise e
  | Ok entries =>
      if forallb valid_source entries then Ok entries
      else Raise (Raised "ConfigError" "invalid data source")
  end.

(** Modelled from the spec: the constructor of the missing class. *)
Definition init (cfg : string) (w : backend Src Tgt)
    : res pipeline * backend Src Tgt :=
  match load_config cfg with
  | Raise e => (Raise e, w)
  | Ok entries => (Ok {| data_sources := entries |}, w)
  end.

(** Modelled from the spec: [connectSource() -> bool] of the missing
    orchestrator: false, not an exception, when the connector fails. *)
Definition connectSource (p : pipeline) (w : backend Src Tgt)
    : res pyval * backend Src Tgt :=
  match connect C (source w) with
  | Ok _ =>
      (Ok (PBool true),
       Backend (source w) (target w) true
             (migration_results w) (validation_results w))
  | Raise _ => (Ok (PBool false), w)
  end.

(** Modelled from the spec: [validate(tableName)] of the missing
    orchestrator: the validator reads both stores, never raises, and
    the result is recorded. *)
Definition validate_table (p : pipeline) (t : pyval) (w : backend Src Tgt)
    : res dict * backend Src Tgt :=
  let v := validate C t (source w) (target w) in
  (Ok (to_dict v),
   Backend (source w) (target w) (source_handle w)
         (migration_results w) (validation_results w ++ [v])).

(** Modelled from the spec: the Transformer of the missing module
    applied to every extracted row, failing at the first bad row. *)
Fixpoint transform_rows (s : dict) (rows : list Row) : res (list Row) :=
  match rows with
  | [] => Ok []
  | r :: rest =>
      match apply C r s with
      | Raise e => Raise e
      | Ok r' =>
          match transform_rows s rest with
          | Raise e => Raise e
          | Ok rest' => Ok (r' :: rest')
          end
      end
  end.

(** Modelled from the spec: the table identifier the missing
    orchestrator reports for a data-source entry. *)
Definition table_id (s : dict) : pyval := dict_get s "table" PNone.

(** Modelled from the spec: one table's extract, transform, load of the
    missing [run_migration]: any error of the three steps is caught and
    becomes the table's failed MigrationResult. *)
Definition migrate_table (s : dict) (src : Src) (tgt : Tgt)
    : MigrationResult * Tgt :=
  match extract C s src with
  | Raise e => (Build_MigrationResult (table_id s) failed 0 (Some e), tgt)
  | Ok rows =>
      match transform_rows s rows with
      | Raise e => (Build_MigrationResult (table_id s) failed 0 (Some e), tgt)
      | Ok rows' =>
          match load C s rows' tgt with
          | ((n, Some e), tgt') =>
              (Build_MigrationResult (table_id s) failed n (Some e), tgt')
          | ((n, None), tgt') =>
              (Build_MigrationResult (table_id s) succeeded n None, tgt')
          end
      end
  end.

(** Modelled from the spec: what it means that extraction, transform or
    load of one table of the missing [run_migration] raises the error [e]
    against source [src] and target [tgt]. *)
Definition etl_raises (s : dict) (src : Src) (tgt : Tgt) (e : exn) : Prop :=
  extract C s src = Raise e \/
  (exists rows, extract C s src = Ok rows /\ transform_rows s rows = Raise e) \/
  (exists rows rows' n tgt',
      extract C s src = Ok rows /\ transform_rows s rows = Ok rows' /\
      load C s rows' tgt = ((n, Some e), tgt')).

(** Modelled from the spec: the per-table loop of the missing
    [run_migration], in config-declared order: migrate the table, then
    validate it whatever the load did, and keep both results. *)
Fixpoint migrate_all (sources : list dict) (src : Src) (tgt : Tgt)
    : list (MigrationResult * ValidationResult) * Tgt :=
  match sources with
  | [] => ([], tgt)
  | s :: rest =>
      let '(m, tgt1) := migrate_table s src tgt in
      let v := validate C (table_id s) src tgt1 in
      let '(results, tgt2) := migrate_all rest src tgt1 in
      ((m, v) :: results, tgt2)
  end.

(** Modelled from the spec: a table counts for the aggregate of the
    missing [run_migration] when it succeeded and its validation
    passed. *)
Definition table_ok (r : MigrationResult * ValidationResult) : bool :=
  bool_decide (mr_status r.1 = succeeded) && validation_passed r.2.

(** Modelled from the spec: the overall result of the missing
    [run_migration], the conjunction over the tables. *)
Definition overall (results : list (MigrationResult * ValidationResult))
    : bool :=
  forallb table_ok results.

(** Modelled from the spec: [runMigration() -> bool] of the missing
    orchestrator: the source connection is the gate before any table
    is touched; then the loop over the active list, whose results are
    recorded. *)
Definition runMigration (p : pipeline) (w : backend Src Tgt)
    : res pyval * backend Src Tgt :=
  match connectSource p w with
  | (Ok c, w1) =>
      if truthy c then
        let '(results, tgt) :=
          migrate_all (data_sources p) (source w1) (target w1) in
        (Ok (PBool (overall results)),
         Backend (source w1) tgt (source_handle w1)
               (migration_results w1 ++ results.*1)
               (validation_results w1 ++ results.*2))
      else (Ok (PBool false), w1)
  | (Raise e, w1) => (Raise e, w1)
  end.

(** Modelled from the spec: the missing class as the script sees it. *)
#[export] Instance api : PipelineAPI (backend Src Tgt) := {|
  CloudMigrationPipeline := init;
  connect_to_source_db := connectSource;
  validate_migration := validate_table;
  run_migration := runMigration
|}.

End Pipeline.

End Orchestrator.

(** ** Reading the specification's [filter] *)

(** A data-source entry whose ['table'] is one of the given names. *)
Definition table_named (names : list string) (s : dict) : Prop :=
  match s !! "table" with
  | Some (PStr n) => n ∈ names
  | _ => False
  end.

#[global] Instance table_named_dec names s : Decision (table_named names s).
Proof.
  unfold table_named. destruct (s !! "table") as [[| | |n]|]; apply _.
Defined.

(** The intersection of the loaded list with a set of names, kept in the
    order of the list: the reading of [filter] in the specification. *)
Definition intersection_in_order (sources : list dict) (names : list string)
    : list dict :=
  filter (table_named names) sources.

(** ** Observations on a run *)

(** The active data-source list the mode branch of [main] works on: the
    configured list, narrowed when table names were given. *)
Definition active_sources (a : args) (p : pipeline) : res (list dict) :=
  if tables_given a then filter_sources (data_sources p) (table_names a)
  else Ok (data_sources p).

(** The table names of a data-source list, in order. *)
Definition tables_of (sources : list dict) : list pyval :=
  omap (fun s : dict => s !! "table") sources.

(** The completed [validate_migration] calls of a trace, in order. *)
Definition validations (tr : list event) : list (pyval * res dict) :=
  omap (fun e => match e with Validate t r => Some (t, r) | _ => None end) tr.

Definition validated_tables (tr : list event) : list pyval :=
  (validations tr).*1.

(** The [run_migration] calls of a trace. *)
Definition migration_calls (tr : list event) : list (res pyval) :=
  omap (fun e => match e with RunMigration r => Some r | _ => None end) tr.

(** The records the validation loop leaves in the trace for the tables it
    validated. *)
Definition loop_events (results : list (pyval * dict)) : list event :=
  flat_map (fun tr : pyval * dict =>
              [Log INFO ("Validating table: " +:+ py_str tr.1);
               Validate tr.1 (Ok tr.2)]) results.

(** The trace once [main] has logged its first record. *)
Definition started {W} (a : args) (st : state W) : list event :=
  trace st ++ [Log INFO ("Starting migration with config file: " +:+ config a)].

(** The record the filter step logs, when it runs. *)
Definition filtered_log (a : args) : list event :=
  if tables_given a
  then [Log INFO ("Filtered migration to tables: "
                  +:+ String.concat ", " (table_names a))]
  else [].

(** A predicate on worlds that a method keeps true, whatever it returns. *)
Definition preserves {W A} (I : W -> Prop) (m : W -> res A * W) : Prop :=
  forall w, I w -> I (m w).2.

Section Outcomes.
Context {W : Type} `{!PipelineAPI W}.

(** Validating the tables of [sources] one after the other from world [w]
    returns a result for each and ends in world [w']. *)
Inductive validates (p : pipeline)
    : list dict -> W -> list (pyval * dict) -> W -> Prop :=
  | validates_nil w : validates p [] w [] w
  | validates_cons s rest t r w w1 results w2 :
      s !! "table" = Some t ->
      validate_migration p t w = (Ok r, w1) ->
      validates p rest w1 results w2 ->
      validates p (s :: rest) w ((t, r) :: results) w2.

(** Every active table's relevant outcome is true: the pipeline is built,
    the active list is resolved, and then, in validate-only mode, the source
    connection is established and every active table's validation result
    has a true ['validation_passed']; in full-migration mode,
    [run_migration] returns true. *)
Definition all_outcomes_true (a : args) (w : W) : Prop :=
  exists p w1 active,
    CloudMigrationPipeline (config a) w = (Ok p, w1) /\
    active_sources a p = Ok active /\
    if validate_only a then
      exists c w2 results w3,
        connect_to_source_db {| data_sources := active |} w1 = (Ok c, w2) /\
        truthy c = true /\
        validates {| data_sources := active |} active w2 results w3 /\
        Forall (fun tr : pyval * dict => passed tr.2 = true) results
    else
      exists v w2,
        run_migration {| data_sources := active |} w1 = (Ok v, w2) /\
        truthy v = true.

(** The routing of validate-only mode read for every run: [run_migration]
    is not called and [validate_migration] is called for every table of the
    active list. *)
Definition validates_every_active_table (a : args) (w : W) : Prop :=
  validate_only a = true ->
  migration_calls (trace (run a w).2) = [] /\
  forall p w1 active,
    CloudMigrationPipeline (config a) w = (Ok p, w1) ->
    active_sources a p = Ok active ->
    validated_tables (trace (run a w).2) = tables_of active.

(** The result invariant read for every validate-only run: the run leaves
    exactly one validation result for every entry of the active list. *)
Definition one_validation_per_table (a : args) (w : W) : Prop :=
  validate_only a = true ->
  forall p w1 active,
    CloudMigrationPipeline (config a) w = (Ok p, w1) ->
    active_sources a p = Ok active ->
    exists results : list dict,
      length results = length active /\
      validations (trace (run a w).2) = zip (tables_of active) (Ok <$> results).

(** An unmatched filter read for every validate-only run: the active list
    is empty and the exit status is 0. *)
Definition unmatched_filter_exits_zero (a : args) (w : W) : Prop :=
  forall p w1,
    CloudMigrationPipeline (config a) w = (Ok p, w1) ->
    tables_given a = true ->
    (forall s, s ∈ data_sources p -> ~ table_named (table_names a) s) ->
    active_sources a p = Ok [] /\
    (validate_only a = true -> exit_status a w = 0).

End Outcomes.

(** ** A small installation to run the script on

    Two configured tables, [orders] and [users], over stores that map a
    table name to its rows.  The source holds [users] only, so extracting
    [orders] fails. *)

Module Demo.

Record source_db := { reachable : bool; src_rows : gmap string (list Z) }.

Abbreviation target_db := (gmap string (list Z)).

Definition entry (table : string) : dict := {[ "table" := PStr table ]}.

Definition configured : list dict := [entry "orders"; entry "users"].

Definition count (rows : option (list Z)) : Z :=
  match rows with
  | Some l => Z.of_nat (length l)
  | None => -1
  end.

Definition parts : Orchestrator.components source_db target_db Z := {|
  Orchestrator.read_config cfg :=
    if String.eqb cfg "config.ini" then Ok configured
    else Raise (Raised "FileNotFoundError" cfg);
  Orchestrator.connect src :=
    if reachable src then Ok tt
    else Raise (Raised "ConnectionError" "source unreachable");
  Orchestrator.extract s src :=
    match s !! "table" with
    | Some (PStr t) =>
        match src_rows src !! t with
        | Some rows => Ok rows
        | None => Raise (Raised "ExtractionError" t)
        end
    | _ => Raise (KeyError "table")
    end;
  Orchestrator.apply row s := Ok row;
  Orchestrator.load s rows tgt :=
    match s !! "table" with
    | Some (PStr t) => ((length rows, None), <[t := rows]> tgt)
    | _ => ((0%nat, Some (KeyError "table")), tgt)
    end;
  Orchestrator.validate t src tgt :=
    match t with
    | PStr n =>
        let sc := count (src_rows src !! n) in
        let tc := count (tgt !! n) in
        {| Orchestrator.vr_table := t;
           Orchestrator.validation_passed := bool_decide (0 <= sc) && (sc =? tc);
           Orchestrator.source_count := sc;
           Orchestrator.target_count := tc;
           Orchestrator.diagnostic := "row counts" |}
    | _ =>
        {| Orchestrator.vr_table := t;
           Orchestrator.validation_passed := false;
           Orchestrator.source_count := -1;
           Orchestrator.target_count := -1;
           Orchestrator.diagnostic := "no such table" |}
    end
|}.

#[global] Instance demo_api : PipelineAPI (Orchestrator.backend source_db target_db) :=
  Orchestrator.api parts.

Definition online : source_db :=
  {| reachable := true; src_rows := {[ "users" := [1; 2; 3] ]} |}.

Definition offline : source_db :=
  {| reachable := false; src_rows := {[ "users" := [1; 2; 3] ]} |}.

(** A fresh world: nothing loaded, nothing recorded. *)
Definition fresh (src : source_db) : Orchestrator.backend source_db target_db :=
  Orchestrator.Backend src ∅ false [] [].

(** A world in which [users] is already in the target. *)
Definition migrated (src : source_db) : Orchestrator.backend source_db target_db :=
  Orchestrator.Backend src {[ "users" := [1; 2; 3] ]} false [] [].

Definition cli (validate : bool) (names : option (list string)) : args :=
  {| config := "config.ini"; validate_only := validate; tables := names |}.

End Demo.

(** ** The calls of a run, and its last log record *)

Definition is_call (e : event) : bool :=
  match e with
  | Log _ _ => false
  | _ => true
  end.

(** The pipeline calls of a trace, in order, without the log records. *)
Definition calls (tr : list event) : list event :=
  filter (fun e => is_call e = true) tr.

(** The [Validate] event of a completed validation call. *)
Definition validation_event (v : pyval * res dict) : event :=
  Validate v.1 v.2.

(** The log records of a trace, in order. *)
Definition records (tr : list event) : list (level * string) :=
  omap (fun e => match e with Log lv msg => Some (lv, msg) | _ => None end) tr.

(** The names line 75 collects: the ['table_name'] of every result whose
    validation did not pass, in the order of the results. *)
Definition failing_names (validation_results : list dict) : list pyval :=
  omap (fun r : dict => r !! "table_name")
       (filter (fun r => passed r = false) validation_results).

(** ** Logging set-up (lines 17 and 31-40)

    [basicConfig] puts the chosen level on the root logger; the logger
    [migration] has no level of its own and both handlers accept every
    level, so a record reaches the log file and the standard output exactly
    when its level is at least the chosen one. *)


Module Logging.





End Logging.

(** ** The name of the log file (lines 28-29) *)

Module LogFile.

(** The fields of [datetime.now()] that the format string reads. *)
Record datetime := {
  year : N; month : N; day : N;
  hour : N; minute : N; second : N
}.

(** What [datetime] guarantees of the fields, for a year of four digits. *)
Definition well_formed (d : datetime) : Prop :=
  (1000 <= year d <= 9999)%N /\
  (1 <= month d <= 12)%N /\ (1 <= day d <= 31)%N /\
  (hour d < 24)%N /\ (minute d < 60)%N /\ (second d < 60)%N.

(** The character of the last decimal digit of [n]. *)
Definition digit (n : N) : Ascii.ascii := Ascii.ascii_of_N (48 + n mod 10).

(** [%m], [%d], [%H], [%M], [%S]: two digits, zero-padded. *)
Definition pad2 (n : N) : string :=
  String (digit (n / 10)) (String (digit n) EmptyString).

(** [%Y] for a year of four digits. *)
Definition pad4 (n : N) : string :=
  String (digit (n / 1000))
    (String (digit (n / 100)) (String (digit (n / 10))
       (String (digit n) EmptyString))).

(** [d.strftime('%Y%m%d_%H%M%S')] *)
Definition strftime (d : datetime) : string :=
  pad4 (year d) +:+ pad2 (month d) +:+ pad2 (day d) +:+ "_"
  +:+ pad2 (hour d) +:+ pad2 (minute d) +:+ pad2 (second d).

(** [os.path.join(a, b)] for a relative [b] and a directory name [a]
    without a trailing separator, on a POSIX system. *)
Definition path_join (a b : string) : string := a +:+ "/" +:+ b.

Definition log_dir : string := "logs".

(** Line 29: [os.path.join(log_dir, f'migration_{timestamp}.log')]. *)
Definition log_file (now : datetime) : string :=
  let timestamp := strftime now in
  path_join log_dir ("migration_" +:+ timestamp +:+ ".log").

End LogFile.

(** ** A test double for the pipeline

    A pipeline with scripted answers; its world counts the method calls
    made on it. *)

Module Stub.

Record script := {
  on_init : res (list dict);
  on_connect : res pyval;
  on_validate : pyval -> res dict;
  on_migrate : res pyval
}.

Definition double (s : script) : PipelineAPI nat := {|
  CloudMigrationPipeline cfg n :=
    (match on_init s with
     | Ok l => Ok {| data_sources := l |}
     | Raise e => Raise e
     end, S n);
  connect_to_source_db p n := (on_connect s, S n);
  validate_migration p t n := (on_validate s t, S n);
  run_migration p n := (on_migrate s, S n)
|}.

Definition verdict (table : string) (ok : bool) : dict :=
  {[ "table_name" := PStr table; "validation_passed" := PBool ok ]}.

End Stub.

(** The order in which [main] may call the pipeline after the constructor:
    in validate-only mode nothing, or one connection attempt followed by
    validation calls, which need a true connection value; in full-migration
    mode nothing, or one call of [run_migration]. *)
Definition follows_protocol (a : args) (rest : list event) : Prop :=
  if validate_only a then
    rest = [] \/
    exists c vs,
      rest = Connect c :: (validation_event <$> vs) /\
      (vs = [] \/ exists c', c = Ok c' /\ truthy c' = true)
  else
    rest = [] \/ exists v, rest = [RunMigration v].

(** The table names the failure record lists: the string ['table_name'] of
    every result that did not pass, in order. *)
Definition failing_table_names (validation_results : list dict) : list string :=
  omap (fun r : dict =>
          match r !! "table_name" with
          | Some (PStr n) => Some n
          | _ => None
          end)
       (filter (fun r => passed r = false) validation_results).

(** Scripts for the test double, and two starting times. *)
Module Cases.

Definition broken_config : Stub.script := {|
  Stub.on_init := Raise (Raised "ConfigError" "no such file");
  Stub.on_connect := Ok (PBool true);
  Stub.on_validate t := Ok (Stub.verdict "users" true);
  Stub.on_migrate := Ok (PBool true)
|}.

(** The second configured entry has no ['table'] key. *)
Definition nameless_entry : Stub.script := {|
  Stub.on_init := Ok [Demo.entry "users"; {[ "target" := PStr "orders" ]}];
  Stub.on_connect := Ok (PBool true);
  Stub.on_validate t := Ok (Stub.verdict "users" true);
  Stub.on_migrate := Ok (PBool true)
|}.

(** Validating [orders] raises. *)
Definition failing_validator : Stub.script := {|
  Stub.on_init := Ok [Demo.entry "users"; Demo.entry "orders";
                      Demo.entry "items"];
  Stub.on_connect := Ok (PBool true);
  Stub.on_validate t :=
    if py_eq t (PStr "orders") then Raise (Raised "ValidationError" "timeout")
    else Ok (Stub.verdict "users" true);
  Stub.on_migrate := Ok (PBool true)
|}.

Definition morning : LogFile.datetime := {|
  LogFile.year := 2026; LogFile.month := 11; LogFile.day := 3;
  LogFile.hour := 9; LogFile.minute := 5; LogFile.second := 0
|}.

Definition a_second_later : LogFile.datetime := {|
  LogFile.year := 2026; LogFile.month := 11; LogFile.day := 3;
  LogFile.hour := 9; LogFile.minute := 5; LogFile.second := 1
|}.

End Cases.

(** ** [main] for any pipeline: the class test of the handler (line 91) *)

(** [isinstance(e, Exception)].  The built-in [KeyError] and [TypeError]
    derive from [Exception]; for an exception of the pipeline the class
    hierarchy [hier] says whether its class does. *)
Definition is_exception (hier : string -> bool) (e : exn) : bool :=
  match e with
  | KeyError _ => true
  | TypeError _ => true
  | Raised cls _ => hier cls
  end.

(** The hierarchy of the built-in classes: these four stand outside
    [Exception], every other class name is taken to derive from it. *)
Definition python_hierarchy (cls : string) : bool :=
  negb (bool_decide (cls ∈ ["BaseException"; "KeyboardInterrupt";
                            "SystemExit"; "GeneratorExit"])).

Section MainPy.
Context {W : Type} `{!PipelineAPI W} (hier : string -> bool).

(** [try: body except Exception as e: handler(e)]: an exception whose
    class does not derive from [Exception] is not caught and leaves the
    statement. *)
Definition try_except_Exception {A} (body : M W A) (handler : exn -> M W A)
    : M W A :=
  fun st =>
    match body st with
    | (Ok a, st') => (Ok a, st')
    | (Raise e, st') =>
        if is_exception hier e then handler e st' else (Raise e, st')
    end.

(** Lines 42-93. *)
Definition main_py (a : args) : M W Z :=
  try_except_Exception (main_body a)
    (fun e =>
       logger_exception ("Migration failed with error: " +:+ exn_str e);;
       mret 1).

Definition run_py (a : args) (w : W) : res Z * state W :=
  main_py a (State w []).

(** Lines 96-97: the value [main] returns, which [sys.exit] receives; there
    is none when an exception leaves [main], and line 97 is not reached. *)
Definition exit_code_py (a : args) (w : W) : option Z :=
  match (run_py a w).1 with
  | Ok code => Some code
  | Raise _ => None
  end.

(** Every exception a method of the pipeline raises derives from
    [Exception]. *)
Definition raises_only_exceptions : Prop :=
  (forall cfg w e w',
      CloudMigrationPipeline cfg w = (Raise e, w') -> is_exception hier e = true) /\
  (forall p w e w',
      connect_to_source_db p w = (Raise e, w') -> is_exception hier e = true) /\
  (forall p t w e w',
      validate_migration p t w = (Raise e, w') -> is_exception hier e = true) /\
  (forall p w e w',
      run_migration p w = (Raise e, w') -> is_exception hier e = true).

(** A validation result whose ['validation_passed'] is true. *)
Definition reports_pass (r : dict) : Prop :=
  exists v, r !! "validation_passed" = Some v /\ truthy v = true.

(** The active list of a run, as the specification resolves it: with table
    names given, every configured entry names its table and the active list
    is the intersection of the configured list with the names; with none
    given it is the configured list. *)
Definition resolved (a : args) (p : pipeline) (active : list dict) : Prop :=
  match tables a with
  | Some (n :: names) =>
      Forall (fun s : dict => is_Some (s !! "table")) (data_sources p) /\
      active = intersection_in_order (data_sources p) (n :: names)
  | _ => active = data_sources p
  end.

(** Every active table's relevant outcome is true, in the words of the
    claim: the pipeline is built and the active list resolved; in
    validate-only mode the source connection is established and every
    active table is validated with a result that reports a pass; in
    full-migration mode [run_migration] returns a true value. *)
Definition every_outcome_true (a : args) (w : W) : Prop :=
  exists p w1 active,
    CloudMigrationPipeline (config a) w = (Ok p, w1) /\
    resolved a p active /\
    if validate_only a then
      exists c w2 results w3,
        connect_to_source_db {| data_sources := active |} w1 = (Ok c, w2) /\
        truthy c = true /\
        validates {| data_sources := active |} active w2 results w3 /\
        Forall (fun tr : pyval * dict => reports_pass tr.2) results
    else
      exists v w2,
        run_migration {| data_sources := active |} w1 = (Ok v, w2) /\
        truthy v = true.

(** The exit status read for every run: 0 exactly when every outcome is
    true, 1 otherwise. *)
Definition exit_status_is_decided (a : args) (w : W) : Prop :=
  (exit_code_py a w = Some 0 <-> every_outcome_true a w) /\
  (exit_code_py a w = Some 0 \/ exit_code_py a w = Some 1).

(** The return value read for every run: [main] returns, and returns 0 or
    1. *)
Definition always_returns_0_or_1 (a : args) (st : state W) : Prop :=
  (main_py a st).1 = Ok 0 \/ (main_py a st).1 = Ok 1.

End MainPy.

(** Pipelines that are interrupted. *)
Module Interrupts.

(** Control-C while the configuration is read. *)
Definition at_start : Stub.script := {|
  Stub.on_init := Raise (Raised "KeyboardInterrupt" EmptyString);
  Stub.on_connect := Ok (PBool true);
  Stub.on_validate t := Ok (Stub.verdict "users" true);
  Stub.on_migrate := Ok (PBool true)
|}.

(** The migration calls [sys.exit(3)]. *)
Definition exiting_migration : Stub.script := {|
  Stub.on_init := Ok [Demo.entry "users"];
  Stub.on_connect := Ok (PBool true);
  Stub.on_validate t := Ok (Stub.verdict "users" true);
  Stub.on_migrate := Raise (Raised "SystemExit" "3")
|}.

End Interrupts.

(** ** How the monad steps *)

Section Steps.
Context {W : Type}.

Lemma bind_step {A B} (m : M W A) (f : A -> M W B) st :
  (m ≫= f) st =
  match m st with
  | (Ok a, st') => f a st'
  | (Raise e, st') => (Raise e, st')
  end.
Proof. reflexivity. Qed.

Lemma ret_step {A} (a : A) (st : state W) :
  (mret a : M W A) st = (Ok a, st).
Proof. reflexivity. Qed.

Lemma emit_step ev (st : state W) :
  emit ev st = (Ok tt, State (world st) (trace st ++ [ev])).
Proof. reflexivity. Qed.

Lemma lift_step {A} (r : res A) (st : state W) : lift r st = (r, st).
Proof. reflexivity. Qed.

Lemma invoke_step {A} (ev : res A -> event) (m : W -> res A * W) st :
  invoke ev m st = ((m (world st)).1,
                    State (m (world st)).2 (trace st ++ [ev (m (world st)).1])).
Proof. unfold invoke. by destruct (m (world st)). Qed.

End Steps.

(** Symbolic execution of a monadic program, one statement at a time. *)
Ltac step :=
  repeat first
    [ rewrite bind_step
    | rewrite ret_step
    | rewrite lift_step
    | rewrite invoke_step
    | progress unfold logger_info, logger_error, logger_exception
    | rewrite emit_step ];
  cbn [world trace fst snd].

(** ** The filter step (lines 50-54) *)

Lemma py_in_named (s : dict) (t : pyval) (names : list string) :
  s !! "table" = Some t -> (py_in t names = true <-> table_named names s).
Proof.
  intros Ht. unfold table_named, py_in. rewrite Ht.
  rewrite existsb_exists. split.
  - intros (n & Hn & Heq). destruct t; simpl in Heq; try discriminate.
    apply String.eqb_eq in Heq. subst. by apply list_elem_of_In.
  - destruct t as [| | |n]; try done. intros Hn. exists n. split.
    + by apply list_elem_of_In.
    + simpl. apply String.eqb_refl.
Qed.

Lemma filter_sources_intersection (sources : list dict) (names : list string) :
  Forall (fun s => is_Some (s !! "table")) sources ->
  filter_sources sources names = Ok (intersection_in_order sources names).
Proof.
  unfold intersection_in_order.
  induction 1 as [|s rest [t Ht] _ IH]; [done|].
  simpl. unfold getitem. rewrite Ht, IH.
  pose proof (py_in_named s t names Ht) as Hin.
  destruct (py_in t names) eqn:E.
  - rewrite filter_cons_True; [done|]. by apply Hin.
  - rewrite filter_cons_False; [done|]. intros Hn. apply Hin in Hn. done.
Qed.

Lemma filter_sources_keyerror (sources : list dict) (names : list string) :
  is_ok (filter_sources sources names) = false <->
  Exists (fun s => s !! "table" = None) sources.
Proof.
  induction sources as [|s rest IH]; simpl.
  - split; [done|]. by rewrite Exists_nil.
  - rewrite Exists_cons. unfold getitem.
    destruct (s !! "table") as [t|] eqn:Ht; simpl.
    + destruct (filter_sources rest names); simpl in *.
      * split; [done|]. intros [?|H]; [done|]. by apply IH in H.
      * split; [|done]. intros _. right. by apply IH.
    + split; [|done]. by left.
Qed.

Section MainFacts.
Context {W : Type} `{!PipelineAPI W}.
Implicit Types (a : args) (p : pipeline) (st : state W) (w : W).

Lemma filter_step_active a p st :
  filter_step a p st =
  match active_sources a p with
  | Ok kept =>
      (Ok {| data_sources := kept |},
       State (world st)
         (trace st ++
          if tables_given a
          then [Log INFO ("Filtered migration to tables: "
                          +:+ String.concat ", " (table_names a))]
          else []))
  | Raise e => (Raise e, st)
  end.
Proof.
  unfold filter_step, active_sources. destruct (tables_given a).
  - step. by destruct (filter_sources _ _).
  - step. destruct p, st. by rewrite app_nil_r.
Qed.

(** *** The validation loop (lines 63-68) *)

Lemma validate_loop_cons p s rest acc st :
  validate_loop p (s :: rest) acc st =
  match s !! "table" with
  | None => (Raise (KeyError "table"), st)
  | Some t =>
      let st1 := State (world st)
                   (trace st ++ [Log INFO ("Validating table: " +:+ py_str t)]) in
      match validate_migration p t (world st) with
      | (Ok r, w1) =>
          validate_loop p rest (acc ++ [r])
            (State w1 (trace st1 ++ [Validate t (Ok r)]))
      | (Raise e, w1) =>
          (Raise e, State w1 (trace st1 ++ [Validate t (Raise e)]))
      end
  end.
Proof.
  cbn [validate_loop]. unfold getitem. step.
  destruct (s !! "table") as [t|]; [|done]. step.
  by destruct (validate_migration p t (world st)) as [[r|e] w1].
Qed.

Lemma validate_loop_sound p sources : forall acc st results' st',
  validate_loop p sources acc st = (Ok results', st') ->
  exists results,
    validates p sources (world st) results (world st') /\
    results' = acc ++ results.*2 /\
    trace st' = trace st ++ loop_events results.
Proof.
  induction sources as [|s rest IH]; intros acc st results' st' Hrun.
  - cbn in Hrun. injection Hrun as <- <-. exists []. split; [constructor|].
    by rewrite !app_nil_r.
  - rewrite validate_loop_cons in Hrun.
    destruct (s !! "table") as [t|] eqn:Ht; [|done]. cbn zeta in Hrun.
    destruct (validate_migration p t (world st)) as [[r|e] w1] eqn:Hv; [|done].
    apply IH in Hrun as (results & Hvs & -> & Htr). cbn [world trace] in *.
    exists ((t, r) :: results). split; [by econstructor|].
    split; [by rewrite <- app_assoc|].
    rewrite Htr. cbn. by rewrite <- !app_assoc.
Qed.

Lemma validate_loop_complete p sources w results w' :
  validates p sources w results w' ->
  forall acc tr,
    validate_loop p sources acc (State w tr) =
    (Ok (acc ++ results.*2), State w' (tr ++ loop_events results)).
Proof.
  induction 1 as [w|s rest t r w w1 results w2 Ht Hv _ IH]; intros acc tr.
  - cbn. by rewrite !app_nil_r.
  - rewrite validate_loop_cons, Ht. cbn [world trace]. rewrite Hv.
    rewrite IH. cbn. by rewrite <- !app_assoc.
Qed.

(** The loop leaves nothing but its own log records and validation calls
    in the trace, validates a prefix of the tables, and touches the world
    through [validate_migration] only. *)
Lemma validate_loop_any p sources : forall acc st,
  exists evs,
    trace (validate_loop p sources acc st).2 = trace st ++ evs /\
    migration_calls evs = [] /\
    validated_tables evs `prefix_of` tables_of sources /\
    forall I : W -> Prop,
      (forall t, preserves I (validate_migration p t)) ->
      I (world st) -> I (world (validate_loop p sources acc st).2).
Proof.
  induction sources as [|s rest IH]; intros acc st.
  - exists []. cbn. rewrite app_nil_r. repeat split; try done.
  - rewrite validate_loop_cons. unfold tables_of. cbn [omap list_omap].
    destruct (s !! "table") as [t|] eqn:Ht.
    + cbn zeta.
      destruct (validate_migration p t (world st)) as [[r|e] w1] eqn:Hv.
      * destruct (IH (acc ++ [r])
                    (State w1 ((trace st ++ [Log INFO ("Validating table: "
                                                       +:+ py_str t)])
                               ++ [Validate t (Ok r)])))
          as (evs & Htr & Hm & Hpre & Hframe).
        exists (Log INFO ("Validating table: " +:+ py_str t)
                :: Validate t (Ok r) :: evs).
        cbn [trace world] in *.
        split; [by rewrite Htr, <- !app_assoc|]. split; [done|]. split.
        -- cbn. by apply prefix_cons.
        -- intros I HI Hw. apply Hframe; [done|].
           specialize (HI t (world st) Hw). by rewrite Hv in HI.
      * exists [Log INFO ("Validating table: " +:+ py_str t);
                Validate t (Raise e)].
        cbn [trace world snd]. rewrite <- app_assoc.
        split; [done|]. split; [done|]. split.
        -- cbn. apply prefix_cons, prefix_nil.
        -- intros I HI Hw. specialize (HI t (world st) Hw). by rewrite Hv in HI.
    + exists []. cbn [snd]. rewrite app_nil_r. split; [done|]. split; [done|].
      split; [apply prefix_nil|done].
Qed.

(** *** The verdict (lines 70-77) *)

Lemma validation_verdict_code results st :
  exists st',
    validation_verdict results st = (Ok 0, st') /\ all_passed results = true \/
    validation_verdict results st = (Ok 1, st') /\ all_passed results = false \/
    (exists e, validation_verdict results st = (Raise e, st')) /\
    all_passed results = false.
Proof.
  unfold validation_verdict. destruct (all_passed results).
  - step. eauto.
  - step. destruct (failed_tables results) as [failed|e]; [|by eauto 6].
    step. destruct (py_join ", " failed) as [joined|e]; [|by eauto 6].
    step. eauto 6.
Qed.

Lemma validation_verdict_frame results st :
  world (validation_verdict results st).2 = world st /\
  exists evs, trace (validation_verdict results st).2 = trace st ++ evs /\
              validations evs = [] /\ migration_calls evs = [].
Proof.
  unfold validation_verdict. destruct (all_passed results).
  - step. split; [done|]. by eexists [_].
  - step. destruct (failed_tables results) as [failed|e].
    + step. destruct (py_join ", " failed) as [joined|e].
      * step. split; [done|]. by eexists [_].
      * cbn. split; [done|]. exists []. by rewrite app_nil_r.
    + cbn. split; [done|]. exists []. by rewrite app_nil_r.
Qed.

(** *** The body of [main], call by call *)

Lemma main_body_unfold a st :
  main_body a st =
  match CloudMigrationPipeline (config a) (world st) with
  | (Raise e, w1) =>
      (Raise e, State w1 (started a st ++ [Init (config a) (Raise e)]))
  | (Ok p, w1) =>
      let tr1 := started a st ++ [Init (config a) (Ok p)] in
      match active_sources a p with
      | Raise e => (Raise e, State w1 tr1)
      | Ok active =>
          let pl := {| data_sources := active |} in
          let tr2 := tr1 ++ filtered_log a in
          if validate_only a then
            let tr3 := tr2 ++ [Log INFO "Running validation only mode"] in
            match connect_to_source_db pl w1 with
            | (Raise e, w2) => (Raise e, State w2 (tr3 ++ [Connect (Raise e)]))
            | (Ok c, w2) =>
                let tr4 := tr3 ++ [Connect (Ok c)] in
                if truthy c then
                  (validate_loop pl active [] ≫= validation_verdict)
                    (State w2 tr4)
                else
                  (Ok 1, State w2
                           (tr4 ++ [Log ERROR "Failed to connect to source database"]))
            end
          else
            let tr3 := tr2 ++ [Log INFO "Running full migration process"] in
            match run_migration pl w1 with
            | (Raise e, w2) =>
                (Raise e, State w2 (tr3 ++ [RunMigration (Raise e)]))
            | (Ok v, w2) =>
                let tr4 := tr3 ++ [RunMigration (Ok v)] in
                if truthy v then
                  (Ok 0, State w2
                           (tr4 ++ [Log INFO "Migration completed successfully"]))
                else
                  (Ok 1, State w2 (tr4 ++ [Log ERROR "Migration process failed"]))
            end
      end
  end.
Proof.
  unfold main_body, started, filtered_log. step.
  destruct (CloudMigrationPipeline (config a) (world st)) as [[p|e] w1];
    cbn [fst snd]; [|done].
  step. rewrite filter_step_active. cbn [world trace].
  destruct (active_sources a p) as [active|e]; [|done]. cbn zeta.
  destruct (validate_only a).
  - step. destruct (connect_to_source_db _ w1) as [[c|e] w2]; cbn [fst snd]; [|done].
    destruct (truthy c); cbn [negb]; by step.
  - step. destruct (run_migration _ w1) as [[v|e] w2]; cbn [fst snd]; [|done].
    destruct (truthy v); cbn [negb]; by step.
Qed.

Lemma main_unfold a st :
  main a st =
  match main_body a st with
  | (Ok code, st') => (Ok code, st')
  | (Raise e, st') =>
      (Ok 1, State (world st')
               (trace st' ++ [Log ERROR ("Migration failed with error: "
                                         +:+ exn_str e)]))
  end.
Proof.
  unfold main, try_except. destruct (main_body a st) as [[code|e] st']; [done|].
  by step.
Qed.

Lemma all_passed_Forall (results : list (pyval * dict)) :
  all_passed results.*2 = true <->
  Forall (fun tr : pyval * dict => passed tr.2 = true) results.
Proof.
  unfold all_passed. induction results as [|[t r] rest IH]; cbn.
  - split; [constructor|done].
  - rewrite Forall_cons, andb_true_iff, IH. done.
Qed.

Lemma main_body_code a st code st' :
  main_body a st = (Ok code, st') -> code = 0 \/ code = 1.
Proof.
  rewrite main_body_unfold.
  destruct (CloudMigrationPipeline _ _) as [[p|e] w1]; [|done].
  destruct (active_sources a p) as [active|e]; [|done]. cbn zeta.
  destruct (validate_only a).
  - destruct (connect_to_source_db _ w1) as [[c|e] w2]; [|done].
    destruct (truthy c).
    + rewrite bind_step.
      destruct (validate_loop _ _ _ _) as [[results|e] st1]; [|done].
      destruct (validation_verdict_code results st1)
        as (st2 & [[-> _]|[[-> _]|[[e ->] _]]]); intros [= <- _]; auto.
    + intros [= <- _]. auto.
  - destruct (run_migration _ w1) as [[v|e] w2]; [|done].
    destruct (truthy v); intros [= <- _]; auto.
Qed.

End MainFacts.

(** *** Observations distribute over the trace *)

Lemma validations_app tr1 tr2 :
  validations (tr1 ++ tr2) = validations tr1 ++ validations tr2.
Proof. apply omap_app. Qed.

Lemma migration_calls_app tr1 tr2 :
  migration_calls (tr1 ++ tr2) = migration_calls tr1 ++ migration_calls tr2.
Proof. apply omap_app. Qed.

Lemma validated_tables_app tr1 tr2 :
  validated_tables (tr1 ++ tr2) = validated_tables tr1 ++ validated_tables tr2.
Proof. unfold validated_tables. by rewrite validations_app, fmap_app. Qed.

Lemma filtered_log_quiet a :
  validations (filtered_log a) = [] /\ migration_calls (filtered_log a) = [].
Proof. unfold filtered_log. by destruct (tables_given a). Qed.

Lemma validations_loop_events results :
  validations (loop_events results) = prod_map id Ok <$> results.
Proof.
  induction results as [|[t r] rest IH]; [done|]. cbn. by rewrite <- IH.
Qed.

Lemma migration_calls_loop_events results :
  migration_calls (loop_events results) = [].
Proof. induction results as [|[t r] rest IH]; [done|]. by cbn. Qed.

(** *** Results of the verdict on well-formed validation results *)

Lemma py_join_from_strings i sep (l : list pyval) :
  Forall (fun v => exists n, v = PStr n) l -> is_ok (py_join_from i sep l) = true.
Proof.
  intros Hl. revert i. induction Hl as [|v rest [n ->] _ IH]; intros i; [done|].
  cbn. destruct rest; [done|]. specialize (IH (S i)).
  by destruct (py_join_from (S i) sep (p :: rest)).
Qed.

Lemma failed_tables_named (results : list dict) :
  Forall (fun r : dict => exists n, r !! "table_name" = Some (PStr n)) results ->
  exists failed,
    failed_tables results = Ok failed /\
    Forall (fun v => exists n, v = PStr n) failed /\
    forall r t, r ∈ results -> passed r = false ->
                r !! "table_name" = Some t -> t ∈ failed.
Proof.
  induction 1 as [|r rest [n Hn] _ (failed & Hf & Hs & Hin)].
  - exists []. split; [done|]. split; [done|]. intros r t Hr. by apply elem_of_nil in Hr.
  - cbn. destruct (passed r) eqn:Hp; cbn.
    + exists failed. split; [done|]. split; [done|].
      intros r' t [->|Hr']%elem_of_cons Hp' Ht; [congruence|eauto].
    + unfold getitem. rewrite Hn, Hf. exists (PStr n :: failed).
      split; [done|]. split; [constructor; eauto|].
      intros r' t [->|Hr']%elem_of_cons Hp' Ht.
      * rewrite Hn in Ht. injection Ht as <-. apply list_elem_of_here.
      * apply list_elem_of_further. eauto.
Qed.

Lemma all_passed_false (results : list dict) r :
  r ∈ results -> passed r = false -> all_passed results = false.
Proof.
  intros Hr Hp. unfold all_passed. apply not_true_is_false.
  rewrite forallb_forall. intros Hall.
  apply list_elem_of_In, Hall in Hr. congruence.
Qed.


(** *** The demonstration installation at work *)

Example demo_full_run :
  exit_status (Demo.cli false (Some ["users"])) (Demo.fresh Demo.online) = 0.
Proof. vm_compute. reflexivity. Qed.

Example demo_full_run_all :
  exit_status (Demo.cli false None) (Demo.fresh Demo.online) = 1.
Proof. vm_compute. reflexivity. Qed.

Example demo_validate_fresh :
  exit_status (Demo.cli true (Some ["users"])) (Demo.fresh Demo.online) = 1.
Proof. vm_compute. reflexivity. Qed.

Example demo_validate_migrated :
  exit_status (Demo.cli true (Some ["users"])) (Demo.migrated Demo.online) = 0.
Proof. vm_compute. reflexivity. Qed.

(** *** Validate-only runs *)

Section ValidateOnly.
Context {W : Type} `{!PipelineAPI W}.
Implicit Types (a : args) (p : pipeline) (st : state W) (w : W).

Lemma validates_tables p sources w results w' :
  validates p sources w results w' ->
  results.*1 = tables_of sources /\ length results = length sources.
Proof.
  induction 1 as [w|s rest t r w w1 results w2 Ht Hv _ [IH1 IH2]]; [done|].
  unfold tables_of in *. cbn. rewrite Ht. cbn. by rewrite IH1, IH2.
Qed.

Lemma validates_total p sources :
  (forall t w, is_ok (validate_migration p t w).1 = true) ->
  Forall (fun s : dict => is_Some (s !! "table")) sources ->
  forall w, exists results w', validates p sources w results w'.
Proof.
  intros Hok. induction 1 as [|s rest [t Ht] _ IH]; intros w.
  - exists [], w. constructor.
  - specialize (Hok t w).
    destruct (validate_migration p t w) as [[r|e] w1] eqn:Hv; [|done].
    destruct (IH w1) as (results & w2 & Hvs).
    exists ((t, r) :: results), w2. by econstructor.
Qed.

(** A validate-only run never calls [run_migration], and reaches the world
    through the constructor, [connect_to_source_db] and
    [validate_migration] only. *)
Lemma validate_only_run a w :
  validate_only a = true ->
  migration_calls (trace (run a w).2) = [] /\
  forall I : W -> Prop,
    preserves I (CloudMigrationPipeline (config a)) ->
    (forall p, preserves I (connect_to_source_db p)) ->
    (forall p t, preserves I (validate_migration p t)) ->
    I w -> I (world (run a w).2).
Proof.
  intros Hmode. unfold run. rewrite main_unfold, main_body_unfold.
  rewrite Hmode. unfold started. cbn [world trace].
  destruct (CloudMigrationPipeline (config a) w) as [[p|e] w1] eqn:Hi;
    cbn [snd world trace].
  2:{ split; [done|]. intros I HI _ _ Hw. specialize (HI w Hw).
      by rewrite Hi in HI. }
  destruct (active_sources a p) as [active|e]; cbn [snd world trace].
  2:{ split; [done|]. intros I HI _ _ Hw. specialize (HI w Hw).
      by rewrite Hi in HI. }
  cbn zeta. destruct (filtered_log_quiet a) as [_ Hq].
  destruct (connect_to_source_db _ w1) as [[c|e] w2] eqn:Hc;
    cbn [snd world trace].
  2:{ rewrite !migration_calls_app, Hq. split; [done|].
      intros I HI HC _ Hw. specialize (HI w Hw). rewrite Hi in HI.
      specialize (HC {| data_sources := active |} w1 HI). by rewrite Hc in HC. }
  assert (Hw2 : forall I : W -> Prop,
             preserves I (CloudMigrationPipeline (config a)) ->
             (forall p, preserves I (connect_to_source_db p)) ->
             I w -> I w2).
  { intros I HI HC Hw. specialize (HI w Hw). rewrite Hi in HI.
    specialize (HC {| data_sources := active |} w1 HI). by rewrite Hc in HC. }
  destruct (truthy c); cbn [snd world trace].
  2:{ rewrite !migration_calls_app, Hq. split; [done|].
      intros I HI HC _ HIw. by apply Hw2. }
  rewrite bind_step.
  match goal with |- context [validate_loop ?pl ?l ?acc ?s] =>
    destruct (validate_loop_any pl l acc s) as (evs & Htr & Hm & _ & Hframe);
    destruct (validate_loop pl l acc s) as [[results|e] st1]
  end; cbn [snd world trace] in *.
  - destruct (validation_verdict_frame results st1) as (Hw & evs' & Htr' & _ & Hm').
    destruct (validation_verdict results st1) as [[code|e] st2];
      cbn [snd world trace] in *.
    + rewrite Htr', Htr, !migration_calls_app, Hq, Hm, Hm'. split; [done|].
      intros I HI HC HV HIw. rewrite Hw. apply Hframe; [intros t; apply HV|by apply Hw2].
    + rewrite Htr', Htr, !migration_calls_app, Hq, Hm, Hm'. split; [done|].
      intros I HI HC HV HIw. rewrite Hw. apply Hframe; [intros t; apply HV|by apply Hw2].
  - rewrite Htr, !migration_calls_app, Hq, Hm. split; [done|].
    intros I HI HC HV HIw. apply Hframe; [intros t; apply HV|by apply Hw2].
Qed.

(** A validate-only run that gets past the connection gate and whose
    validations all return: the trace holds their results, one for every
    entry of the active list, in order. *)
Lemma validate_only_results a w p w1 active c w2 results w3 :
  validate_only a = true ->
  CloudMigrationPipeline (config a) w = (Ok p, w1) ->
  active_sources a p = Ok active ->
  connect_to_source_db {| data_sources := active |} w1 = (Ok c, w2) ->
  truthy c = true ->
  validates {| data_sources := active |} active w2 results w3 ->
  validations (trace (run a w).2) = prod_map id Ok <$> results /\
  world (run a w).2 = w3.
Proof.
  intros Hmode Hi Ha Hc Htc Hvs. unfold run.
  rewrite main_unfold, main_body_unfold. cbn [world trace].
  rewrite Hi, Ha, Hmode. cbn zeta. rewrite Hc, Htc, bind_step.
  erewrite validate_loop_complete by done. cbn [app].
  destruct (filtered_log_quiet a) as [Hq _].
  match goal with |- context [validation_verdict ?r ?s] =>
    destruct (validation_verdict_frame r s) as (Hw & evs' & Htr' & Hv' & _);
    destruct (validation_verdict r s) as [[code|e] st2]
  end; cbn [snd world trace] in *;
    rewrite Htr'; unfold started; cbn [trace];
    rewrite !validations_app, Hq, Hv', validations_loop_events;
    cbn; by rewrite ?app_nil_r.
Qed.

(** A validate-only run stopped at the connection gate validates nothing
    and exits with 1. *)
Lemma validate_only_gate a w p w1 active c w2 :
  validate_only a = true ->
  CloudMigrationPipeline (config a) w = (Ok p, w1) ->
  active_sources a p = Ok active ->
  connect_to_source_db {| data_sources := active |} w1 = (Ok c, w2) ->
  truthy c = false ->
  exit_status a w = 1 /\
  validations (trace (run a w).2) = [] /\
  world (run a w).2 = w2.
Proof.
  intros Hmode Hi Ha Hc Htc. unfold exit_status, run.
  rewrite main_unfold, main_body_unfold. cbn [world trace].
  rewrite Hi, Ha, Hmode. cbn zeta. rewrite Hc, Htc. cbn [fst snd world trace].
  destruct (filtered_log_quiet a) as [Hq _]. unfold started. cbn [trace].
  by rewrite !validations_app, Hq.
Qed.

End ValidateOnly.

(** *** The orchestrator *)

Section OrchestratorFacts.
Import Orchestrator.
Context {Src Tgt Row : Type} (C : components Src Tgt Row).
Implicit Types (s : dict) (src : Src) (tgt : Tgt) (w : backend Src Tgt).

Lemma load_config_valid cfg entries :
  load_config C cfg = Ok entries ->
  Forall (fun s : dict => exists n, s !! "table" = Some (PStr n)) entries.
Proof.
  unfold load_config. destruct (read_config C cfg) as [l|e]; [|done].
  destruct (forallb valid_source l) eqn:Hall; [|done]. intros [= <-].
  rewrite forallb_forall in Hall. apply Forall_forall. intros s Hs.
  apply list_elem_of_In, Hall in Hs. unfold valid_source in Hs.
  destruct (s !! "table") as [[| | |n]|]; try done. by exists n.
Qed.

Lemma connect_source_result p w :
  connectSource C p w =
  if is_ok (connect C (source w))
  then (Ok (PBool true),
        Backend (source w) (target w) true
              (migration_results w) (validation_results w))
  else (Ok (PBool false), w).
Proof. unfold connectSource. by destruct (connect C (source w)). Qed.

Lemma migrate_table_status s src tgt :
  let m := (migrate_table C s src tgt).1 in
  mr_table m = table_id s /\
  (mr_status m = succeeded /\ error_detail m = None \/
   mr_status m = failed /\ exists e, error_detail m = Some e /\
                                     etl_raises C s src tgt e).
Proof.
  unfold migrate_table, etl_raises.
  destruct (extract C s src) as [rows|e] eqn:He; cbn; [|by eauto 8].
  destruct (transform_rows C s rows) as [rows'|e] eqn:Ht; cbn; [|by eauto 10].
  destruct (load C s rows' tgt) as [[n [e|]] tgt'] eqn:Hl; cbn; [|by eauto].
  split; [done|]. right. split; [done|]. exists e. split; [done|].
  right. right. by exists rows, rows', n, tgt'.
Qed.

Lemma migrate_table_raises s src tgt e :
  etl_raises C s src tgt e ->
  let m := (migrate_table C s src tgt).1 in
  mr_table m = table_id s /\ mr_status m = failed /\ error_detail m = Some e.
Proof.
  unfold etl_raises, migrate_table.
  intros [He|[(rows & He & Ht)|(rows & rows' & n & tgt' & He & Ht & Hl)]];
    rewrite He; [done|..]; rewrite Ht; [done|]. by rewrite Hl.
Qed.

Lemma migrate_all_app before after src tgt :
  migrate_all C (before ++ after) src tgt =
  let r1 := migrate_all C before src tgt in
  let r2 := migrate_all C after src r1.2 in
  (r1.1 ++ r2.1, r2.2).
Proof.
  revert tgt. induction before as [|s rest IH]; intros tgt; cbn.
  - by destruct (migrate_all C after src tgt).
  - destruct (migrate_table C s src tgt) as [m tgt1]. rewrite IH.
    destruct (migrate_all C rest src tgt1) as [r1 tgt2]. cbn.
    by destruct (migrate_all C after src tgt2).
Qed.

Lemma migrate_all_cons s rest src tgt :
  migrate_all C (s :: rest) src tgt =
  let mt := migrate_table C s src tgt in
  let r := migrate_all C rest src mt.2 in
  ((mt.1, validate C (table_id s) src mt.2) :: r.1, r.2).
Proof.
  cbn. destruct (migrate_table C s src tgt) as [m tgt1]. cbn.
  by destruct (migrate_all C rest src tgt1).
Qed.

(** One pair of results for every entry, in the order of the list. *)
Lemma migrate_all_tables sources src tgt :
  let results := (migrate_all C sources src tgt).1 in
  mr_table <$> results.*1 = table_id <$> sources /\
  length results = length sources.
Proof.
  revert tgt. induction sources as [|s rest IH]; intros tgt; [done|].
  rewrite migrate_all_cons. cbn.
  destruct (migrate_table_status s src tgt) as [-> _].
  destruct (IH (migrate_table C s src tgt).2) as [-> ->]. done.
Qed.

Lemma run_all_connected p w :
  is_ok (connect C (source w)) = true ->
  let r := migrate_all C (data_sources p) (source w) (target w) in
  runMigration C p w =
  (Ok (PBool (overall r.1)),
   Backend (source w) r.2 true
         (migration_results w ++ r.1.*1) (validation_results w ++ r.1.*2)).
Proof.
  intros Hc. unfold runMigration. rewrite connect_source_result, Hc. cbn.
  by destruct (migrate_all C (data_sources p) (source w) (target w)).
Qed.

Lemma run_all_gate p w :
  is_ok (connect C (source w)) = false ->
  runMigration C p w = (Ok (PBool false), w).
Proof.
  intros Hc. unfold runMigration. by rewrite connect_source_result, Hc.
Qed.

(** With the source out of reach, a run of the script leaves the world as
    it found it and exits with 1, in either mode. *)
Lemma unreachable_run a w :
  is_ok (connect C (source w)) = false ->
  exit_status (PipelineAPI0 := api C) a w = 1 /\
  world (run (PipelineAPI0 := api C) a w).2 = w /\
  validations (trace (run (PipelineAPI0 := api C) a w).2) = [].
Proof.
  intros Hc. unfold exit_status, run.
  rewrite main_unfold, main_body_unfold. cbn [world trace].
  cbn [CloudMigrationPipeline connect_to_source_db run_migration api].
  unfold init, started. cbn [trace].
  destruct (filtered_log_quiet a) as [Hq _].
  destruct (load_config C (config a)) as [entries|e]; [|done].
  destruct (active_sources a _) as [active|e]; [|done]. cbn zeta.
  destruct (validate_only a).
  - rewrite connect_source_result, Hc. cbn.
    by rewrite !validations_app, Hq.
  - rewrite run_all_gate by done. cbn.
    by rewrite !validations_app, Hq.
Qed.

(** A full-migration run of the script, with the configuration loaded and
    the source within reach. *)
Lemma connected_full_run a w entries active :
  validate_only a = false ->
  load_config C (config a) = Ok entries ->
  active_sources a {| data_sources := entries |} = Ok active ->
  is_ok (connect C (source w)) = true ->
  let r := migrate_all C active (source w) (target w) in
  exit_status (PipelineAPI0 := api C) a w = (if overall r.1 then 0 else 1) /\
  world (run (PipelineAPI0 := api C) a w).2 =
    Backend (source w) r.2 true
          (migration_results w ++ r.1.*1) (validation_results w ++ r.1.*2).
Proof.
  intros Hmode Hcfg Ha Hc r. unfold exit_status, run.
  rewrite main_unfold, main_body_unfold. cbn [world trace].
  cbn [CloudMigrationPipeline connect_to_source_db run_migration api].
  unfold init. rewrite Hcfg, Ha, Hmode. cbn zeta.
  rewrite run_all_connected by done. cbn [data_sources truthy]. fold r.
  by destruct (overall r.1).
Qed.

End OrchestratorFacts.

(** Two results of the same call are the same result. *)
Ltac determ :=
  simplify_eq;
  repeat match goal with
         | H1 : ?x = _, H2 : ?x = _ |- _ => rewrite H1 in H2; simplify_eq
         end.

(** *** The exit status of a run *)

Section ExitStatusFacts.
Context {W : Type} `{!PipelineAPI W}.
Implicit Types (a : args) (p : pipeline) (st : state W) (w : W).

Lemma main_code_cases a st :
  ((main a st).1 = Ok 0 \/ (main a st).1 = Ok 1) /\
  match (main_body a st).1 with
  | Ok code => (main a st).1 = Ok code /\ (code = 0 \/ code = 1)
  | Raise _ => (main a st).1 = Ok 1
  end.
Proof.
  rewrite main_unfold.
  destruct (main_body a st) as [[code|e] st'] eqn:Hbody; cbn [fst].
  - apply main_body_code in Hbody as Hcode.
    split; [|done]. destruct Hcode as [-> | ->]; auto.
  - auto.
Qed.

Lemma exit_status_outcomes a w :
  (exit_status a w = 0 <-> all_outcomes_true a w) /\
  (exit_status a w = 0 \/ exit_status a w = 1).
Proof.
  split; [|unfold exit_status, run;
           destruct (main_code_cases a (State w [])) as [[-> | ->] _]; auto].
  unfold exit_status, run, all_outcomes_true.
  rewrite main_unfold, main_body_unfold. cbn [world].
  destruct (CloudMigrationPipeline (config a) w) as [[p|e] w1] eqn:Hi;
    [|split; [done|intros (? & ? & ? & ? & _); determ]].
  destruct (active_sources a p) as [active|e] eqn:Ha;
    [|split; [done|intros (? & ? & ? & ? & ? & _); determ]].
  cbn zeta. destruct (validate_only a).
  - destruct (connect_to_source_db _ w1) as [[c|e] w2] eqn:Hc;
      [|split; [done|intros (? & ? & ? & ? & ? & ? & ? & ? & ? & ? & _);
                      determ]].
    destruct (truthy c) eqn:Htc;
      [|split; [done|intros (? & ? & ? & ? & ? & ? & ? & ? & ? & ? & ? & _);
                      determ]].
    rewrite bind_step.
    destruct (validate_loop _ _ _ _) as [[results|e] st1] eqn:Hloop.
    + apply validate_loop_sound in Hloop as Hs.
      destruct Hs as (trs & Hvs & -> & _). cbn [app world] in *.
      assert (Hno : all_passed trs.*2 = false ->
                forall trs' w3,
                  validates {| data_sources := active |} active w2 trs' w3 ->
                  ~ Forall (fun tr : pyval * dict => passed tr.2 = true) trs').
      { intros Hp trs' w3 Hvs' Hall.
        apply validate_loop_complete with (acc := []) (tr := []) in Hvs.
        apply validate_loop_complete with (acc := []) (tr := []) in Hvs'.
        apply all_passed_Forall in Hall. cbn [app] in *. rewrite Hvs in Hvs'.
        injection Hvs' as Heq _. congruence. }
      destruct (validation_verdict_code trs.*2 st1)
        as (st2 & [[-> Hp]|[[-> Hp]|[[e ->] Hp]]]); cbn [fst].
      * split; [intros _|done]. exists p, w1, active. do 2 (split; [done|]).
        exists c, w2, trs, (world st1). by rewrite <- all_passed_Forall.
      * split; [done|].
        intros (? & ? & ? & ? & ? & ? & ? & ? & ? & ? & ? & Hvs' & Hall).
        determ. destruct (Hno Hp _ _ Hvs' Hall).
      * split; [done|].
        intros (? & ? & ? & ? & ? & ? & ? & ? & ? & ? & ? & Hvs' & Hall).
        determ. destruct (Hno Hp _ _ Hvs' Hall).
    + split; [done|].
      intros (? & ? & ? & ? & ? & ? & ? & ? & ? & ? & ? & Hvs' & Hall).
      determ.
      eapply validate_loop_complete in Hvs'. rewrite Hvs' in Hloop. done.
  - destruct (run_migration _ w1) as [[v|e] w2] eqn:Hr;
      [|split; [done|intros (? & ? & ? & ? & ? & ? & ? & ? & _); determ]].
    destruct (truthy v) eqn:Htv.
    + split; [intros _|done]. exists p, w1, active. do 2 (split; [done|]).
      by exists v, w2.
    + split; [done|]. intros (? & ? & ? & ? & ? & ? & ? & ? & ?). determ.
Qed.

End ExitStatusFacts.


(** *** Unmatched names *)

Lemma validations_zip (results : list (pyval * dict)) :
  prod_map id Ok <$> results = zip results.*1 (Ok <$> results.*2).
Proof. induction results as [|[t r] rest IH]; [done|]. cbn. by rewrite IH. Qed.

Lemma intersection_empty (sources : list dict) (names : list string) :
  (forall s, s ∈ sources -> ~ table_named names s) ->
  intersection_in_order sources names = [].
Proof.
  intros Hnone. unfold intersection_in_order.
  induction sources as [|s rest IH]; [done|].
  rewrite filter_cons_False by (apply Hnone, list_elem_of_here).
  apply IH. intros s' Hs'. by apply Hnone, list_elem_of_further.
Qed.

(** *** Calls and records of a trace *)

Lemma calls_app tr1 tr2 : calls (tr1 ++ tr2) = calls tr1 ++ calls tr2.
Proof. apply filter_app. Qed.

Lemma records_app tr1 tr2 : records (tr1 ++ tr2) = records tr1 ++ records tr2.
Proof. apply omap_app. Qed.

Lemma calls_filtered_log a : calls (filtered_log a) = [].
Proof. unfold filtered_log. by destruct (tables_given a). Qed.

Lemma records_filtered_log a :
  Forall (fun r : level * string => r.1 = INFO) (records (filtered_log a)).
Proof.
  unfold filtered_log. destruct (tables_given a); repeat constructor.
Qed.

Lemma calls_loop_events results :
  calls (loop_events results)
  = validation_event <$> (prod_map id Ok <$> results).
Proof.
  induction results as [|[t r] rest IH]; [done|].
  cbn [loop_events flat_map]. rewrite calls_app. fold (loop_events rest).
  rewrite IH. done.
Qed.

Lemma records_loop_events results :
  Forall (fun r : level * string => r.1 = INFO) (records (loop_events results)).
Proof.
  induction results as [|[t r] rest IH]; [constructor|].
  cbn [loop_events flat_map]. rewrite records_app. fold (loop_events rest).
  apply Forall_app. split; [repeat constructor|done].
Qed.

(** *** The filter on a list with an entry that has no table *)

Lemma filter_sources_raises (sources : list dict) (names : list string) :
  Exists (fun s : dict => s !! "table" = None) sources ->
  filter_sources sources names = Raise (KeyError "table").
Proof.
  induction sources as [|s rest IH]; intros Hex.
  - by apply Exists_nil in Hex.
  - cbn. unfold getitem. destruct (s !! "table") as [t|] eqn:Ht; [|done].
    apply Exists_cons in Hex as [Hs|Hrest]; [congruence|].
    by rewrite IH.
Qed.

Lemma py_in_elem (t : pyval) (names : list string) :
  py_in t names = true <-> exists n, t = PStr n /\ n ∈ names.
Proof.
  unfold py_in. rewrite existsb_exists. split.
  - intros (n & Hn & Heq). destruct t; simpl in Heq; try discriminate.
    apply String.eqb_eq in Heq. subst. exists n. split; [done|].
    by apply list_elem_of_In.
  - intros (n & -> & Hn). exists n. split; [by apply list_elem_of_In|].
    apply String.eqb_refl.
Qed.

Lemma py_in_same_names (t : pyval) (names1 names2 : list string) :
  (forall n, n ∈ names1 <-> n ∈ names2) ->
  py_in t names1 = py_in t names2.
Proof.
  intros Hsame. apply eq_true_iff_eq. rewrite !py_in_elem.
  split; intros (n & -> & Hn); exists n; (split; [done|]); by apply Hsame.
Qed.

(** *** The verdict and the loop, case by case *)

Lemma failed_tables_names (results : list dict) :
  Forall (fun r : dict => passed r = false -> is_Some (r !! "table_name"))
         results ->
  failed_tables results = Ok (failing_names results).
Proof.
  unfold failing_names. induction 1 as [|r rest Hr _ IH]; [done|].
  cbn [failed_tables]. destruct (passed r) eqn:Hp; cbn [negb].
  - rewrite IH. by rewrite filter_cons_False by congruence.
  - destruct (Hr eq_refl) as [t Ht]. unfold getitem. rewrite Ht, IH.
    rewrite filter_cons_True by done. cbn. by rewrite Ht.
Qed.

Lemma failed_tables_keyerror (before : list dict) (r : dict) (after : list dict) :
  Forall (fun r' : dict => passed r' = false -> is_Some (r' !! "table_name"))
         before ->
  passed r = false ->
  r !! "table_name" = None ->
  failed_tables (before ++ r :: after) = Raise (KeyError "table_name").
Proof.
  intros Hbefore Hp Hr. induction Hbefore as [|r' rest Hr' _ IH].
  - cbn. rewrite Hp. cbn. unfold getitem. by rewrite Hr.
  - cbn [app failed_tables]. destruct (passed r') eqn:Hp'; cbn [negb]; [done|].
    destruct (Hr' eq_refl) as [t Ht]. unfold getitem at 1. by rewrite Ht, IH.
Qed.

Section RunFacts.
Context {W : Type} `{!PipelineAPI W}.
Implicit Types (a : args) (p : pipeline) (st : state W) (w : W).

Lemma validation_verdict_unfold (results : list dict) st :
  validation_verdict results st =
  if all_passed results then
    (Ok 0, State (world st)
             (trace st ++ [Log INFO "All validations passed successfully!"]))
  else
    match failed_tables results with
    | Raise e => (Raise e, st)
    | Ok failed =>
        match py_join ", " failed with
        | Raise e => (Raise e, st)
        | Ok joined =>
            (Ok 1, State (world st)
                     (trace st ++ [Log ERROR ("Validation failed for tables: "
                                              +:+ joined)]))
        end
    end.
Proof.
  unfold validation_verdict. destruct (all_passed results); [by step|].
  step. destruct (failed_tables results) as [failed|e]; [|done].
  step. destruct (py_join ", " failed) as [joined|e]; [|done]. by step.
Qed.

(** The loop on a list whose entry [s] cannot be validated: the entries
    before it are validated, the error of [s] ends the loop. *)
Lemma validate_loop_raises p before s after w results w1 t e w2 :
  validates p before w results w1 ->
  s !! "table" = Some t ->
  validate_migration p t w1 = (Raise e, w2) ->
  forall acc tr,
    validate_loop p (before ++ s :: after) acc (State w tr) =
    (Raise e,
     State w2 (tr ++ loop_events results
                  ++ [Log INFO ("Validating table: " +:+ py_str t);
                      Validate t (Raise e)])).
Proof.
  intros Hvs Ht Hv.
  induction Hvs as [w|s' rest t' r w w' results w'' Ht' Hv' _ IH];
    intros acc tr.
  - cbn [app]. rewrite validate_loop_cons, Ht. cbn [world trace].
    rewrite Hv. cbn. by rewrite <- app_assoc.
  - cbn [app]. rewrite validate_loop_cons, Ht'. cbn [world trace].
    rewrite Hv', IH by done. cbn. by rewrite <- !app_assoc.
Qed.

Lemma validate_loop_keyerror p before s after w results w1 :
  validates p before w results w1 ->
  s !! "table" = None ->
  forall acc tr,
    validate_loop p (before ++ s :: after) acc (State w tr) =
    (Raise (KeyError "table"), State w1 (tr ++ loop_events results)).
Proof.
  intros Hvs Ht.
  induction Hvs as [w|s' rest t' r w w' results w'' Ht' Hv' _ IH];
    intros acc tr.
  - cbn [app]. rewrite validate_loop_cons, Ht. cbn. by rewrite app_nil_r.
  - cbn [app]. rewrite validate_loop_cons, Ht'. cbn [world trace].
    rewrite Hv', IH. cbn. by rewrite <- !app_assoc.
Qed.

(** What every run of the loop leaves in the trace: log records at level
    INFO and the validation calls. *)
Lemma validate_loop_events p sources : forall acc st,
  exists evs,
    trace (validate_loop p sources acc st).2 = trace st ++ evs /\
    calls evs = validation_event <$> validations evs /\
    Forall (fun r : level * string => r.1 = INFO) (records evs) /\
    (forall t e, (t, Raise e) ∈ validations evs ->
                 (validate_loop p sources acc st).1 = Raise e).
Proof.
  induction sources as [|s rest IH]; intros acc st.
  - exists []. cbn. rewrite app_nil_r. repeat split; try done.
    intros t e Hin. by apply elem_of_nil in Hin.
  - rewrite validate_loop_cons.
    destruct (s !! "table") as [t|] eqn:Ht.
    + cbn zeta.
      destruct (validate_migration p t (world st)) as [[r|e] w1] eqn:Hv.
      * destruct (IH (acc ++ [r])
                    (State w1 ((trace st ++ [Log INFO ("Validating table: "
                                                       +:+ py_str t)])
                               ++ [Validate t (Ok r)])))
          as (evs & Htr & Hcalls & Hrec & Hraise).
        exists (Log INFO ("Validating table: " +:+ py_str t)
                :: Validate t (Ok r) :: evs).
        cbn [trace world] in *.
        split; [by rewrite Htr, <- !app_assoc|]. split.
        { change (Log INFO ("Validating table: " +:+ py_str t)
                  :: Validate t (Ok r) :: evs)
            with ([Log INFO ("Validating table: " +:+ py_str t);
                   Validate t (Ok r)] ++ evs).
          rewrite calls_app, validations_app, fmap_app, Hcalls. done. }
        split; [by constructor|].
        intros t' e' Hin. apply Hraise with t'.
        cbn in Hin. apply elem_of_cons in Hin as [[=]|Hin]. done.
      * exists [Log INFO ("Validating table: " +:+ py_str t);
                Validate t (Raise e)].
        cbn [trace world fst snd]. rewrite <- app_assoc.
        split; [done|]. split; [done|]. split; [by repeat constructor|].
        intros t' e' Hin. cbn in Hin.
        apply list_elem_of_singleton in Hin. by injection Hin as -> ->.
    + exists []. cbn [fst snd]. rewrite app_nil_r. repeat split; try done.
      intros t e Hin. by apply elem_of_nil in Hin.
Qed.

End RunFacts.

(** *** The shape of every run *)

Section RunShape.
Context {W : Type} `{!PipelineAPI W}.
Implicit Types (a : args) (p : pipeline) (st : state W) (w : W).

Lemma run_shape a w :
  let tr := trace (run a w).2 in
  (exists init lv msg,
      tr = init ++ [Log lv msg] /\ (exit_status a w = 0 <-> lv = INFO)) /\
  (exit_status a w = 0 ->
   Forall (fun r : level * string => r.1 = INFO) (records tr)) /\
  (exists rest,
      calls tr
      = Init (config a) (CloudMigrationPipeline (config a) w).1 :: rest /\
      follows_protocol a rest).
Proof.
  unfold exit_status, run, follows_protocol.
  rewrite main_unfold, main_body_unfold. cbn [world trace].
  unfold started. cbn [trace].
  pose proof (calls_filtered_log a) as Hq.
  pose proof (records_filtered_log a) as Hr.
  destruct (CloudMigrationPipeline (config a) w) as [[p|e] w1];
    cbn [fst snd world trace].
  2:{ split; [by eexists _, _, _|]. split; [done|].
      exists []. split; [done|]. destruct (validate_only a); by left. }
  destruct (active_sources a p) as [active|e]; cbn [fst snd world trace].
  2:{ split; [by eexists _, _, _|]. split; [done|].
      exists []. split; [done|]. destruct (validate_only a); by left. }
  cbn zeta. destruct (validate_only a).
  - destruct (connect_to_source_db _ w1) as [[c|e] w2];
      cbn [fst snd world trace].
    2:{ split; [by eexists _, _, _|]. split; [done|].
        exists [Connect (Raise e)]. rewrite !calls_app, Hq.
        split; [done|]. right. exists (Raise e), []. split; [done|]. by left. }
    destruct (truthy c) eqn:Htc; cbn [fst snd world trace].
    2:{ split; [by eexists _, _, _|]. split; [done|].
        exists [Connect (Ok c)]. rewrite !calls_app, Hq.
        split; [done|]. right. exists (Ok c), []. split; [done|]. by left. }
    rewrite bind_step.
    match goal with |- context [validate_loop ?pl ?l ?acc ?s] =>
      destruct (validate_loop_events pl l acc s)
        as (evs & Htr & Hcalls & Hrec & _);
      destruct (validate_loop pl l acc s) as [[results|e] st1]
    end; cbn [fst snd world trace] in *.
    + rewrite validation_verdict_unfold.
      assert (Hprot : forall tail,
                 calls tail = [] ->
                 exists rest,
                   calls (trace st1 ++ tail)
                   = Init (config a) (Ok p) :: rest /\
                   (rest = [] \/
                    exists c0 vs,
                      rest = Connect c0 :: (validation_event <$> vs) /\
                      (vs = [] \/ exists c', c0 = Ok c' /\ truthy c' = true))).
      { intros tail Htail. exists (Connect (Ok c) :: calls evs).
        rewrite Htr, !calls_app, Hq, Htail, app_nil_r. split; [done|].
        right. exists (Ok c), (validations evs). split; [by rewrite Hcalls|].
        right. by exists c. }
      destruct (all_passed results); cbn [fst snd world trace].
      * split; [by eexists _, _, _|]. split; [|by apply Hprot].
        intros _. rewrite Htr, !records_app. repeat apply Forall_app_2;
          try done; by repeat constructor.
      * destruct (failed_tables results) as [failed|e];
          cbn [fst snd world trace].
        -- destruct (py_join ", " failed) as [joined|e];
             cbn [fst snd world trace].
           ++ split; [by eexists _, _, _|]. split; [done|]. by apply Hprot.
           ++ split; [by eexists _, _, _|]. split; [done|]. by apply Hprot.
        -- split; [by eexists _, _, _|]. split; [done|]. by apply Hprot.
    + split; [by eexists _, _, _|]. split; [done|].
      exists (Connect (Ok c) :: calls evs).
      rewrite Htr, !calls_app, Hq, app_nil_r. split; [done|].
      right. exists (Ok c), (validations evs). split; [by rewrite Hcalls|].
      right. by exists c.
  - destruct (run_migration _ w1) as [[v|e] w2]; cbn [fst snd world trace].
    2:{ split; [by eexists _, _, _|]. split; [done|].
        exists [RunMigration (Raise e)]. rewrite !calls_app, Hq.
        split; [done|]. right. by eexists. }
    destruct (truthy v); cbn [fst snd world trace].
    + split; [by eexists _, _, _|]. split.
      * intros _. rewrite !records_app. repeat apply Forall_app_2;
          try done; by repeat constructor.
      * exists [RunMigration (Ok v)]. rewrite !calls_app, Hq.
        split; [done|]. right. by eexists.
    + split; [by eexists _, _, _|]. split; [done|].
      exists [RunMigration (Ok v)]. rewrite !calls_app, Hq.
      split; [done|]. right. by eexists.
Qed.

End RunShape.

(** *** Joining names, and the digits of a time stamp *)

Lemma py_join_from_concat i sep (names : list string) :
  py_join_from i sep (PStr <$> names) = Ok (String.concat sep names).
Proof.
  revert i. induction names as [|n rest IH]; intros i; [done|].
  cbn [fmap list_fmap py_join_from]. destruct rest as [|n' rest]; [done|].
  change (PStr n' :: list_fmap _ _ PStr rest) with (PStr <$> (n' :: rest)).
  by rewrite IH.
Qed.

Lemma failed_tables_strings (results : list dict) :
  Forall (fun r : dict =>
            passed r = false -> exists n, r !! "table_name" = Some (PStr n))
         results ->
  failed_tables results = Ok (PStr <$> failing_table_names results).
Proof.
  unfold failing_table_names. induction 1 as [|r rest Hr _ IH]; [done|].
  cbn [failed_tables]. destruct (passed r) eqn:Hp; cbn [negb].
  - rewrite IH. by rewrite filter_cons_False by congruence.
  - destruct (Hr eq_refl) as [n Hn]. unfold getitem. rewrite Hn, IH.
    rewrite filter_cons_True by done. cbn. by rewrite Hn.
Qed.

(** Linear arithmetic over [N] with division and remainder by constants. *)
Ltac div_lia := zify; Z.to_euclidean_division_equations; lia.

Lemma digit_inj (m n : N) :
  LogFile.digit m = LogFile.digit n -> (m mod 10 = n mod 10)%N.
Proof.
  unfold LogFile.digit. intros Heq.
  apply (f_equal Ascii.N_of_ascii) in Heq.
  rewrite !Ascii.N_ascii_embedding in Heq by div_lia. lia.
Qed.

Lemma pad2_inj (m n : N) :
  (m < 100)%N -> (n < 100)%N -> LogFile.pad2 m = LogFile.pad2 n -> m = n.
Proof.
  intros Hm Hn [= H1 H0]. apply digit_inj in H1, H0. div_lia.
Qed.

Lemma last_digit_step (m n : N) :
  (m mod 10 = n mod 10)%N -> (m / 10 = n / 10)%N -> m = n.
Proof. intros. div_lia. Qed.

Lemma pad4_inj (m n : N) :
  (m < 10000)%N -> (n < 10000)%N -> LogFile.pad4 m = LogFile.pad4 n -> m = n.
Proof.
  intros Hm Hn [= H3 H2 H1 H0]. apply digit_inj in H3, H2, H1, H0.
  assert (E3 : (m / 1000 = n / 1000)%N).
  { assert (m / 1000 < 10)%N by (apply N.Div0.div_lt_upper_bound; lia).
    assert (n / 1000 < 10)%N by (apply N.Div0.div_lt_upper_bound; lia).
    rewrite !N.mod_small in H3 by done. done. }
  apply last_digit_step; [done|].
  apply last_digit_step; [done|]. rewrite !N.Div0.div_div. cbn [N.mul Pos.mul].
  apply last_digit_step; [done|]. rewrite !N.Div0.div_div. done.
Qed.

(** *** Where the exceptions of [main]'s body come from *)

Lemma filter_sources_error (sources : list dict) (names : list string) e :
  filter_sources sources names = Raise e -> e = KeyError "table".
Proof.
  induction sources as [|s rest IH]; [done|]. cbn. unfold getitem.
  destruct (s !! "table"); [|by intros [= <-]].
  destruct (filter_sources rest names); [done|]. intros [= <-]. by apply IH.
Qed.

Lemma failed_tables_error (results : list dict) e :
  failed_tables results = Raise e -> e = KeyError "table_name".
Proof.
  induction results as [|r rest IH]; [done|]. cbn.
  destruct (negb (passed r)); [|done]. unfold getitem.
  destruct (r !! "table_name"); [|by intros [= <-]].
  destruct (failed_tables rest); [done|]. intros [= <-]. by apply IH.
Qed.

Lemma py_join_from_error i sep (l : list pyval) e :
  py_join_from i sep l = Raise e -> exists m, e = TypeError m.
Proof.
  revert i. induction l as [|v rest IH]; intros i; [done|]. cbn.
  destruct v; try (intros [= <-]; by eexists).
  destruct rest as [|v' rest]; [done|].
  destruct (py_join_from (S i) sep (v' :: rest)) eqn:E; [done|].
  intros [= <-]. by eapply IH.
Qed.

Section Escapes.
Context {W : Type} `{!PipelineAPI W} (hier : string -> bool).
Implicit Types (a : args) (p : pipeline) (st : state W) (w : W).

Lemma validate_loop_error p sources : forall acc st e st',
  validate_loop p sources acc st = (Raise e, st') ->
  e = KeyError "table" \/
  exists t w w', validate_migration p t w = (Raise e, w').
Proof.
  induction sources as [|s rest IH]; intros acc st e st'; [done|].
  rewrite validate_loop_cons.
  destruct (s !! "table") as [t|]; [|intros [= <- _]; by left]. cbn zeta.
  destruct (validate_migration p t (world st)) as [[r|e'] w1] eqn:Hv.
  - apply IH.
  - intros [= <- _]. right. eauto.
Qed.

Lemma validation_verdict_error (results : list dict) st e st' :
  validation_verdict results st = (Raise e, st') ->
  is_exception hier e = true.
Proof.
  rewrite validation_verdict_unfold. destruct (all_passed results); [done|].
  destruct (failed_tables results) as [failed|e'] eqn:Hf.
  - destruct (py_join ", " failed) as [joined|e'] eqn:Hj; [done|].
    intros [= <- _]. apply py_join_from_error in Hj as [m ->]. done.
  - intros [= <- _]. by apply failed_tables_error in Hf as ->.
Qed.

(** An exception that leaves the body of the [try] is one of [main]'s own
    lookups or joins, or comes out of a method of the pipeline. *)
Lemma main_body_error a st e st' :
  raises_only_exceptions hier ->
  main_body a st = (Raise e, st') ->
  is_exception hier e = true.
Proof.
  intros (Hinit & Hconnect & Hvalidate & Hmigrate).
  rewrite main_body_unfold.
  destruct (CloudMigrationPipeline _ _) as [[p|e0] w1] eqn:Hi;
    [|intros [= <- _]; eauto].
  unfold active_sources.
  destruct (if tables_given a then _ else _) as [active|e0] eqn:Ha.
  2:{ intros [= <- _]. destruct (tables_given a); [|done].
      by apply filter_sources_error in Ha as ->. }
  cbn zeta. destruct (validate_only a).
  - destruct (connect_to_source_db _ w1) as [[c|e0] w2] eqn:Hc;
      [|intros [= <- _]; eauto].
    destruct (truthy c); [|done]. rewrite bind_step.
    destruct (validate_loop _ _ _ _) as [[results|e0] st1] eqn:Hloop.
    + apply validation_verdict_error.
    + intros [= <- _].
      apply validate_loop_error in Hloop as [->|(t & w & w' & Hv)]; eauto.
  - destruct (run_migration _ w1) as [[v|e0] w2] eqn:Hr;
      [|intros [= <- _]; eauto].
    by destruct (truthy v).
Qed.

Lemma main_py_unfold a st :
  main_py hier a st =
  match main_body a st with
  | (Ok code, st') => (Ok code, st')
  | (Raise e, st') =>
      if is_exception hier e then
        (Ok 1, State (world st')
                 (trace st' ++ [Log ERROR ("Migration failed with error: "
                                           +:+ exn_str e)]))
      else (Raise e, st')
  end.
Proof.
  unfold main_py, try_except_Exception.
  destruct (main_body a st) as [[code|e] st']; [done|].
  destruct (is_exception hier e); [by step|done].
Qed.

(** On a pipeline whose exceptions all derive from [Exception] the handler
    catches whatever leaves the body. *)
Lemma main_py_agrees a st :
  raises_only_exceptions hier -> main_py hier a st = main a st.
Proof.
  intros Hexc. rewrite main_py_unfold, main_unfold.
  destruct (main_body a st) as [[code|e] st'] eqn:Hbody; [done|].
  by rewrite (main_body_error a st e st' Hexc Hbody).
Qed.

(** *** The outcome of a run in the words of the claim *)

Lemma reports_pass_passed (r : dict) : reports_pass r <-> passed r = true.
Proof.
  unfold reports_pass, passed, dict_get. split.
  - intros (v & -> & Hv). done.
  - destruct (r !! "validation_passed") as [v|]; [eauto|done].
Qed.

Lemma resolved_active a p active :
  resolved a p active <-> active_sources a p = Ok active.
Proof.
  unfold resolved, active_sources, tables_given, table_names.
  destruct (tables a) as [[|n names]|]; cbn [default from_option id].
  - split; [by intros ->|by intros [= ->]].
  - split.
    + intros [Hkeys ->]. by apply filter_sources_intersection.
    + intros Hf.
      assert (Hkeys : Forall (fun s : dict => is_Some (s !! "table"))
                        (data_sources p)).
      { apply Forall_forall. intros s Hs.
        destruct (s !! "table") eqn:Ht; [done|]. exfalso.
        assert (Hex : Exists (fun s : dict => s !! "table" = None)
                        (data_sources p)) by (apply Exists_exists; eauto).
        apply filter_sources_raises with (names := n :: names) in Hex.
        congruence. }
      split; [done|]. rewrite filter_sources_intersection in Hf by done.
      by injection Hf.
  - split; [by intros ->|by intros [= ->]].
Qed.

Lemma every_outcome_true_iff a w :
  every_outcome_true a w <-> all_outcomes_true a w.
Proof.
  unfold every_outcome_true, all_outcomes_true. split.
  - intros (p & w1 & active & Hi & Ha & H). exists p, w1, active.
    split; [done|]. split; [by apply resolved_active|].
    destruct (validate_only a); [|done].
    destruct H as (c & w2 & results & w3 & Hc & Htc & Hvs & Hall).
    exists c, w2, results, w3. repeat (split; [done|]).
    eapply Forall_impl; [done|]. intros tr. apply reports_pass_passed.
  - intros (p & w1 & active & Hi & Ha & H). exists p, w1, active.
    split; [done|]. split; [by apply resolved_active|].
    destruct (validate_only a); [|done].
    destruct H as (c & w2 & results & w3 & Hc & Htc & Hvs & Hall).
    exists c, w2, results, w3. repeat (split; [done|]).
    eapply Forall_impl; [done|]. intros tr. apply reports_pass_passed.
Qed.

Lemma exit_code_py_outcomes a w :
  raises_only_exceptions hier ->
  (exit_code_py hier a w = Some 0 <-> every_outcome_true a w) /\
  (exit_code_py hier a w = Some 0 \/ exit_code_py hier a w = Some 1).
Proof.
  intros Hexc. unfold exit_code_py, run_py. rewrite main_py_agrees by done.
  destruct (exit_status_outcomes a w) as [Hiff Hcode].
  destruct (main_code_cases a (State w [])) as [Hmain _].
  unfold exit_status, run in Hiff, Hcode. rewrite every_outcome_true_iff.
  destruct Hmain as [Hm|Hm]; rewrite Hm in *.
  - split; [|by left]. split; [intros _; by apply Hiff|done].
  - split; [|by right]. split; [done|]. intros Hall. by apply Hiff in Hall.
Qed.

End Escapes.

(** *** A validate-only run that is not connected *)

Section NotConnected.
Context {W : Type} `{!PipelineAPI W}.
Implicit Types (a : args) (p : pipeline) (st : state W) (w : W).

Lemma validate_only_not_connected a w p w1 active r w2 :
  validate_only a = true ->
  CloudMigrationPipeline (config a) w = (Ok p, w1) ->
  active_sources a p = Ok active ->
  connect_to_source_db {| data_sources := active |} w1 = (r, w2) ->
  (forall c, r = Ok c -> truthy c = false) ->
  validations (trace (run a w).2) = [] /\
  world (run a w).2 = w2 /\
  exit_status a w = 1.
Proof.
  intros Hmode Hi Ha Hc Hfalse. unfold exit_status, run.
  rewrite main_unfold, main_body_unfold. cbn [world trace].
  rewrite Hi, Ha, Hmode. cbn zeta. rewrite Hc.
  destruct (filtered_log_quiet a) as [Hq _]. unfold started. cbn [trace].
  destruct r as [c|e].
  - rewrite (Hfalse c eq_refl). cbn [fst snd world trace].
    by rewrite !validations_app, Hq.
  - cbn [fst snd world trace]. by rewrite !validations_app, Hq.
Qed.

End NotConnected.

(** *** What a run shows, with or without the class test *)

Section Observations.
Context {W : Type} `{!PipelineAPI W} (hier : string -> bool).
Implicit Types (a : args) (w : W).

(** The class test of the handler decides only whether the last error
    record is written: the world, the validations and the calls of a run
    are the same with it. *)
Lemma run_py_observations a w :
  world (run_py hier a w).2 = world (run a w).2 /\
  validations (trace (run_py hier a w).2) = validations (trace (run a w).2) /\
  migration_calls (trace (run_py hier a w).2)
  = migration_calls (trace (run a w).2) /\
  calls (trace (run_py hier a w).2) = calls (trace (run a w).2).
Proof.
  unfold run_py, run. rewrite main_py_unfold, main_unfold.
  destruct (main_body a (State w [])) as [[code|e] st']; [done|].
  destruct (is_exception hier e); [done|]. cbn [snd world trace].
  rewrite validations_app, migration_calls_app, calls_app. cbn.
  by rewrite !app_nil_r.
Qed.

End Observations.

(** The test double raises only what its script holds. *)
Lemma double_raises_only_exceptions (s : Stub.script) :
  (forall e, Stub.on_init s = Raise e -> is_exception python_hierarchy e = true) ->
  (forall e, Stub.on_connect s = Raise e ->
             is_exception python_hierarchy e = true) ->
  (forall t e, Stub.on_validate s t = Raise e ->
               is_exception python_hierarchy e = true) ->
  (forall e, Stub.on_migrate s = Raise e ->
             is_exception python_hierarchy e = true) ->
  raises_only_exceptions (PipelineAPI0 := Stub.double s) python_hierarchy.
Proof.
  intros Hinit Hconnect Hvalidate Hmigrate. repeat split.
  - intros cfg w e w'. cbn. destruct (Stub.on_init s) as [l|e'] eqn:E; [done|].
    intros [= <- _]. by apply Hinit.
  - intros p w e w'. cbn. intros [= He _]. by apply Hconnect.
  - intros p t w e w'. cbn. intros [= He _]. by eapply Hvalidate.
  - intros p w e w'. cbn. intros [= He _]. by apply Hmigrate.
Qed.


(** ** The exit status of a run *)

Section ExitStatus.
Context {W : Type} `{!PipelineAPI W} (hier : string -> bool).
Implicit Types (a : args) (p : pipeline) (st : state W) (w : W).

(** C9, as amended: a value the body of the [try] returns is returned by
    [main] unchanged and is 0 or 1; an exception that leaves the body and
    derives from [Exception] is caught by the handler, which returns 1; an
    exception outside [Exception] is not caught and leaves [main].  With a
    pipeline whose exceptions all derive from [Exception], [main] returns
    0 or 1 on every input and from every state. *)
Theorem main_py_returns_or_lets_through a st :
  match (main_body a st).1 with
  | Ok code => (main_py hier a st).1 = Ok code /\ (code = 0 \/ code = 1)
  | Raise e =>
      if is_exception hier e then (main_py hier a st).1 = Ok 1
      else (main_py hier a st).1 = Raise e
  end /\
  (raises_only_exceptions hier ->
   (main_py hier a st).1 = Ok 0 \/ (main_py hier a st).1 = Ok 1).
Proof.
  split.
  - rewrite main_py_unfold.
    destruct (main_body a st) as [[code|e] st'] eqn:Hbody; cbn [fst].
    + split; [done|]. by eapply main_body_code.
    + by destruct (is_exception hier e).
  - intros Hexc. rewrite main_py_agrees by done.
    by destruct (main_code_cases a st) as [? _].
Qed.

(** C1, as amended: with a pipeline whose exceptions all derive from
    [Exception], the exit status of a run is 0 exactly when every active
    table's relevant outcome is true, and it is 1 otherwise.  A source
    connection that is not established, like any exception, gives 1. *)
Theorem exit_code_decided_by_outcomes a w :
  raises_only_exceptions hier ->
  (exit_code_py hier a w = Some 0 <-> every_outcome_true a w) /\
  (exit_code_py hier a w = Some 0 \/ exit_code_py hier a w = Some 1).
Proof. apply exit_code_py_outcomes. Qed.

End ExitStatus.

(** C9 at work: a validator that raises a [ValidationError]. *)
Lemma main_py_returns_or_lets_through_witness :
  (main_py (PipelineAPI0 := Stub.double Cases.failing_validator)
     python_hierarchy (Demo.cli true None) (State 0%nat [])).1 = Ok 1.
Proof.
  destruct (main_py_returns_or_lets_through
              (PipelineAPI0 := Stub.double Cases.failing_validator)
              python_hierarchy (Demo.cli true None) (State 0%nat []))
    as [_ Hreturns].
  destruct Hreturns as [H0|H1].
  - apply double_raises_only_exceptions.
    + intros e [=].
    + intros e [=].
    + intros t e. cbn. destruct (py_eq t (PStr "orders")); [|intros [=]].
      intros [= <-]. reflexivity.
    + intros e [=].
  - vm_compute in H0. discriminate H0.
  - exact H1.
Defined.

(** C9, as first worded, fails: a migration that calls [sys.exit] raises
    [SystemExit], which [except Exception] does not catch; [main] does not
    return. *)
Lemma system_exit_leaves_main :
  ~ always_returns_0_or_1 (PipelineAPI0 := Stub.double Interrupts.exiting_migration)
      python_hierarchy (Demo.cli false None) (State 0%nat []).
Proof.
  unfold always_returns_0_or_1. vm_compute. intros [H|H]; discriminate H.
Qed.

(** C1 at work: a full migration that returns [True]. *)
Lemma exit_code_decided_by_outcomes_witness :
  exit_code_py (PipelineAPI0 := Stub.double Cases.nameless_entry)
    python_hierarchy (Demo.cli false None) 0%nat = Some 0.
Proof.
  apply (exit_code_decided_by_outcomes
           (PipelineAPI0 := Stub.double Cases.nameless_entry)
           python_hierarchy (Demo.cli false None) 0%nat).
  - apply double_raises_only_exceptions.
    + intros e [=].
    + intros e [=].
    + intros t e [=].
    + intros e [=].
  - eexists _, _, _. split; [reflexivity|]. split; [reflexivity|].
    eexists _, _. split; reflexivity.
Defined.

(** C1, as first worded, fails: interrupted while the configuration is
    read, [main] returns nothing for [sys.exit] to receive, neither 0 nor
    1. *)
Lemma interrupted_run_has_no_exit_code :
  ~ exit_status_is_decided (PipelineAPI0 := Stub.double Interrupts.at_start)
      python_hierarchy (Demo.cli false None) 0%nat.
Proof.
  intros [_ Hcode]. vm_compute in Hcode. destruct Hcode as [H|H]; discriminate H.
Qed.

(** ** The table filter *)

Section Filter.
Context {W : Type}.
Implicit Types (a : args) (p : pipeline) (st : state W).

(** C3: when table names are given, the filter step replaces the loaded
    data-source list by its intersection with the names: the entries whose
    table is one of the names, each kept as often and in the order the
    configuration lists them.  It succeeds whether or not every given name
    occurs in the configuration, and it leaves the world alone. *)
Theorem filter_step_intersection a p st names :
  tables a = Some names ->
  names <> [] ->
  Forall (fun s : dict => is_Some (s !! "table")) (data_sources p) ->
  let kept := intersection_in_order (data_sources p) names in
  (filter_step a p st).1 = Ok {| data_sources := kept |} /\
  world (filter_step a p st).2 = world st /\
  kept `sublist_of` data_sources p /\
  forall s, s ∈ kept <-> s ∈ data_sources p /\ table_named names s.
Proof.
  intros Ha Hne Hvalid kept. rewrite filter_step_active.
  unfold active_sources, tables_given, table_names. rewrite Ha.
  destruct names as [|n names']; [done|]. cbn [default].
  rewrite filter_sources_intersection by done. cbn [fst snd world].
  split; [done|]. split; [done|]. split.
  - apply sublist_filter.
  - intros s. unfold kept, intersection_in_order.
    rewrite list_elem_of_filter. tauto.
Qed.

(** C7: with no table names given, the filter step is the identity: the
    pipeline keeps the data-source list it was loaded with, and neither the
    world nor the trace changes. *)
Theorem filter_step_no_names a p st :
  tables_given a = false ->
  filter_step a p st = (Ok p, st).
Proof. intros Ha. unfold filter_step. by rewrite Ha. Qed.

(** C10: a validation result without a ['validation_passed'] key counts as
    failed.  With every result carrying its table name, the aggregate is
    false, the table of that result is in the list of failed tables, the
    error record names the failed tables, and the verdict is 1. *)
Theorem missing_key_fails_validation (results : list dict) (r : dict) st :
  r ∈ results ->
  r !! "validation_passed" = None ->
  Forall (fun r' : dict => exists n, r' !! "table_name" = Some (PStr n)) results ->
  all_passed results = false /\
  exists failed t joined,
    failed_tables results = Ok failed /\
    r !! "table_name" = Some t /\
    t ∈ failed /\
    py_join ", " failed = Ok joined /\
    validation_verdict results st =
      (Ok 1, State (world st)
               (trace st ++ [Log ERROR ("Validation failed for tables: "
                                        +:+ joined)])).
Proof.
  intros Hr Hkey Hnamed.
  assert (Hp : passed r = false) by (unfold passed, dict_get; by rewrite Hkey).
  pose proof (all_passed_false results r Hr Hp) as Hall. split; [done|].
  destruct (failed_tables_named results Hnamed) as (failed & Hf & Hs & Hin).
  rewrite Forall_forall in Hnamed. destruct (Hnamed r Hr) as [n Hn].
  pose proof (py_join_from_strings 0 ", " failed Hs) as Hj.
  fold (py_join ", " failed) in Hj.
  destruct (py_join ", " failed) as [joined|] eqn:Ej; [|done].
  exists failed, (PStr n), joined. repeat (split; [by eauto|]).
  unfold validation_verdict. rewrite Hall. step. rewrite Hf. step.
  rewrite Ej. by step.
Qed.

End Filter.

(** C3 at work: asking for [users] and for a table the configuration does
    not have keeps [users] alone. *)
Lemma filter_step_intersection_witness :
  (filter_step (Demo.cli true (Some ["users"; "payments"]))
     {| data_sources := Demo.configured |} (State tt [])).1
  = Ok {| data_sources := [Demo.entry "users"] |}.
Proof.
  refine (proj1 (filter_step_intersection
                   (Demo.cli true (Some ["users"; "payments"]))
                   {| data_sources := Demo.configured |} (State tt [])
                   ["users"; "payments"] _ _ _)).
  - reflexivity.
  - discriminate.
  - vm_compute. repeat constructor; eexists; reflexivity.
Defined.

(** C7 at work. *)
Lemma filter_step_no_names_witness :
  filter_step (Demo.cli false None) {| data_sources := Demo.configured |}
    (State tt [])
  = (Ok {| data_sources := Demo.configured |}, State tt []).
Proof. apply filter_step_no_names. reflexivity. Defined.

(** C10 at work: of two results, the second has no verdict key. *)
Lemma missing_key_fails_validation_witness :
  all_passed [ {[ "table_name" := PStr "users"; "validation_passed" := PBool true ]};
               {[ "table_name" := PStr "orders" ]} ] = false.
Proof.
  refine (proj1 (missing_key_fails_validation
                   [ {[ "table_name" := PStr "users";
                        "validation_passed" := PBool true ]};
                     {[ "table_name" := PStr "orders" ]} ]
                   {[ "table_name" := PStr "orders" ]} (State tt []) _ _ _)).
  - apply list_elem_of_further, list_elem_of_here.
  - reflexivity.
  - repeat constructor; eexists; reflexivity.
Defined.

(** ** Validate-only mode *)

(** C2, as amended: a run in validate-only mode never calls
    [run_migration], and it reaches the world only through the constructor,
    [connect_to_source_db] and [validate_migration]: whatever these three
    keep true of the world (the contents of the target store, for a
    validator that does not write) is true after the run, so no load takes
    place.  When the pipeline is built, the source connection is
    established and validation returns for every table of the active list,
    [validate_migration] is called once for every entry of the active list,
    in order, and on nothing else.  When [connect_to_source_db] returns a
    false value or raises, no table is validated. *)
Theorem validate_only_never_migrates
    {W} `{!PipelineAPI W} (hier : string -> bool) (a : args) (w : W) :
  validate_only a = true ->
  migration_calls (trace (run_py hier a w).2) = [] /\
  (forall I : W -> Prop,
      preserves I (CloudMigrationPipeline (config a)) ->
      (forall p, preserves I (connect_to_source_db p)) ->
      (forall p t, preserves I (validate_migration p t)) ->
      I w -> I (world (run_py hier a w).2)) /\
  (forall p w1 active c w2 results w3,
      CloudMigrationPipeline (config a) w = (Ok p, w1) ->
      active_sources a p = Ok active ->
      connect_to_source_db {| data_sources := active |} w1 = (Ok c, w2) ->
      truthy c = true ->
      validates {| data_sources := active |} active w2 results w3 ->
      validated_tables (trace (run_py hier a w).2) = tables_of active /\
      length (validated_tables (trace (run_py hier a w).2)) = length active /\
      validations (trace (run_py hier a w).2) = prod_map id Ok <$> results) /\
  (forall p w1 active r w2,
      CloudMigrationPipeline (config a) w = (Ok p, w1) ->
      active_sources a p = Ok active ->
      connect_to_source_db {| data_sources := active |} w1 = (r, w2) ->
      (forall c, r = Ok c -> truthy c = false) ->
      validations (trace (run_py hier a w).2) = []).
Proof.
  intros Hmode.
  destruct (run_py_observations hier a w) as (Ew & Ev & Em & _).
  unfold validated_tables. rewrite Ew, Ev, Em.
  fold (validated_tables (trace (run a w).2)). clear Ew Ev Em.
  destruct (validate_only_run a w Hmode) as [Hcalls Hframe].
  split; [done|]. split; [done|]. split.
  - intros p w1 active c w2 results w3 Hi Ha Hc Htc Hvs.
    destruct (validate_only_results a w p w1 active c w2 results w3)
      as [Hv _]; try done.
    apply validates_tables in Hvs as [Htabs Hlen].
    assert (Ht : validated_tables (trace (run a w).2) = tables_of active).
    { unfold validated_tables. rewrite Hv, <- Htabs.
      rewrite <- list_fmap_compose. by apply list_fmap_ext; intros ? []. }
    split; [done|]. split; [|done].
    by rewrite Ht, <- Htabs, length_fmap.
  - intros p w1 active r w2 Hi Ha Hc Hfalse.
    by destruct (validate_only_not_connected a w p w1 active r w2)
      as [Hv _].
Qed.

(** C2 at work: validating the two configured tables with the source within
    reach calls [validate_migration] on both, never [run_migration], and
    the target store is the one from before the run. *)
Lemma validate_only_never_migrates_witness :
  let a := Demo.cli true None in
  let w := Demo.migrated Demo.online in
  validate_only a = true /\
  migration_calls (trace (run_py python_hierarchy a w).2) = [] /\
  validated_tables (trace (run_py python_hierarchy a w).2) = [PStr "orders"; PStr "users"] /\
  Orchestrator.target (world (run_py python_hierarchy a w).2) = Orchestrator.target w.
Proof.
  intros a w.
  destruct (validate_only_never_migrates python_hierarchy a w eq_refl)
    as (Hcalls & Hframe & Hall & _).
  split; [reflexivity|]. split; [exact Hcalls|]. split.
  - change [PStr "orders"; PStr "users"] with (tables_of Demo.configured).
    eapply Hall.
    + reflexivity.
    + reflexivity.
    + reflexivity.
    + reflexivity.
    + eapply validates_cons; [reflexivity|reflexivity|].
      eapply validates_cons; [reflexivity|reflexivity|]. apply validates_nil.
  - apply (Hframe (fun b => Orchestrator.target b = Orchestrator.target w)).
    + intros b Hb. cbn. unfold Orchestrator.init.
      destruct (Orchestrator.load_config Demo.parts (config a)); exact Hb.
    + intros p b Hb. cbn. unfold Orchestrator.connectSource.
      destruct (Orchestrator.connect Demo.parts (Orchestrator.source b));
        exact Hb.
    + intros p t b Hb. exact Hb.
    + reflexivity.
Defined.

(** C2, as first worded, fails: with the source out of reach the run stops
    at the connection gate, and neither configured table is validated. *)
Lemma validate_only_offline_validates_none :
  ~ validates_every_active_table (Demo.cli true None) (Demo.fresh Demo.offline).
Proof.
  intros Hclaim. destruct (Hclaim eq_refl) as [_ Hall].
  specialize (Hall _ _ Demo.configured eq_refl eq_refl).
  vm_compute in Hall. discriminate Hall.
Qed.

(** C4, as amended: once the source connection is established, every
    entry of the active list yields exactly one result, in the order of the
    list, so that no entry is dropped and a table the list names once is
    reported once.  In validate-only mode, with validation returning for
    every table of the list, the run leaves one validation result per
    entry; in full-migration mode the orchestrator of the specification
    records one migration result per entry.  When the source connection is
    not established, no result is produced for any table. *)
Theorem one_result_per_active_table :
  (forall W (API : PipelineAPI W) (hier : string -> bool) (a : args) (w : W)
          p w1 active c w2 results w3,
      validate_only a = true ->
      CloudMigrationPipeline (config a) w = (Ok p, w1) ->
      active_sources a p = Ok active ->
      connect_to_source_db {| data_sources := active |} w1 = (Ok c, w2) ->
      truthy c = true ->
      validates {| data_sources := active |} active w2 results w3 ->
      validations (trace (run_py hier a w).2)
      = zip (tables_of active) (Ok <$> results.*2) /\
      length results.*2 = length active /\
      length (tables_of active) = length active /\
      (NoDup (tables_of active) ->
       NoDup (validations (trace (run_py hier a w).2)).*1)) /\
  (forall W (API : PipelineAPI W) (hier : string -> bool) (a : args) (w : W) p w1 active r w2,
      validate_only a = true ->
      CloudMigrationPipeline (config a) w = (Ok p, w1) ->
      active_sources a p = Ok active ->
      connect_to_source_db {| data_sources := active |} w1 = (r, w2) ->
      (forall c, r = Ok c -> truthy c = false) ->
      validations (trace (run_py hier a w).2) = []) /\
  (forall Src Tgt Row (C : Orchestrator.components Src Tgt Row)
          (hier : string -> bool) (a : args) (w : Orchestrator.backend Src Tgt) entries active,
      validate_only a = false ->
      Orchestrator.load_config C (config a) = Ok entries ->
      active_sources a {| data_sources := entries |} = Ok active ->
      is_ok (Orchestrator.connect C (Orchestrator.source w)) = true ->
      let w' := world (run_py (PipelineAPI0 := Orchestrator.api C) hier a w).2 in
      exists ms : list Orchestrator.MigrationResult,
        Orchestrator.migration_results w'
        = Orchestrator.migration_results w ++ ms /\
        Orchestrator.mr_table <$> ms = Orchestrator.table_id <$> active /\
        length ms = length active /\
        (NoDup (Orchestrator.table_id <$> active) ->
         NoDup (Orchestrator.mr_table <$> ms))) /\
  (forall Src Tgt Row (C : Orchestrator.components Src Tgt Row)
          (hier : string -> bool) (a : args) (w : Orchestrator.backend Src Tgt),
      is_ok (Orchestrator.connect C (Orchestrator.source w)) = false ->
      let w' := world (run_py (PipelineAPI0 := Orchestrator.api C) hier a w).2 in
      Orchestrator.migration_results w' = Orchestrator.migration_results w /\
      Orchestrator.validation_results w' = Orchestrator.validation_results w).
Proof.
  split; [|split; [|split]].
  - intros W API hier a w p w1 active c w2 results w3 Hmode Hi Ha Hc Htc Hvs.
    destruct (run_py_observations hier a w) as (_ & -> & _).
    destruct (validate_only_results a w p w1 active c w2 results w3)
      as [Hv _]; try done.
    apply validates_tables in Hvs as [Htabs Hlen].
    assert (Hz : validations (trace (run a w).2)
                 = zip (tables_of active) (Ok <$> results.*2))
      by (by rewrite Hv, validations_zip, Htabs).
    split; [done|]. split; [by rewrite length_fmap|].
    split; [by rewrite <- Htabs, length_fmap|].
    intros Hnodup. rewrite Hz, fst_zip; [done|].
    by rewrite <- Htabs, !length_fmap.
  - intros W API hier a w p w1 active r w2 Hmode Hi Ha Hc Hfalse.
    destruct (run_py_observations hier a w) as (_ & -> & _).
    by destruct (validate_only_not_connected a w p w1 active r w2)
      as [Hv _].
  - intros Src Tgt Row C hier a w entries active Hmode Hcfg Ha Hc w'.
    destruct (run_py_observations (PipelineAPI0 := Orchestrator.api C) hier a w)
      as (Hsame & _). subst w'. rewrite Hsame.
    set (w' := world (run (PipelineAPI0 := Orchestrator.api C) a w).2).
    destruct (connected_full_run C a w entries active) as [_ Hw]; try done.
    subst w'. rewrite Hw. cbn.
    destruct (migrate_all_tables C active (Orchestrator.source w)
                (Orchestrator.target w)) as [Htabs Hlen].
    eexists. split; [done|]. split; [done|].
    split; [by rewrite length_fmap|]. intros Hnodup. by rewrite Htabs.
  - intros Src Tgt Row C hier a w Hc w'.
    destruct (run_py_observations (PipelineAPI0 := Orchestrator.api C) hier a w)
      as (Hsame & _). subst w'. rewrite Hsame.
    set (w' := world (run (PipelineAPI0 := Orchestrator.api C) a w).2).
    destruct (unreachable_run C a w Hc) as (_ & Hw & _).
    subst w'. by rewrite Hw.
Qed.

(** C4 at work, in both modes, on the two configured tables. *)
Lemma one_result_per_active_table_witness :
  length (validations
            (trace (run_py python_hierarchy (Demo.cli true None)
                     (Demo.migrated Demo.online)).2))
  = 2%nat /\
  length (Orchestrator.migration_results
            (world (run_py python_hierarchy (Demo.cli false None)
                     (Demo.fresh Demo.online)).2))
  = 2%nat.
Proof.
  destruct one_result_per_active_table as (Hval & _ & Hfull & _). split.
  - edestruct (Hval _ _ python_hierarchy (Demo.cli true None) (Demo.migrated Demo.online)
                 {| data_sources := Demo.configured |}
                 (Demo.migrated Demo.online) Demo.configured (PBool true)
                 (Orchestrator.Backend Demo.online {[ "users" := [1; 2; 3] ]}
                    true [] []))
      as (Hz & Hlen & Hlen' & _).
    + reflexivity.
    + reflexivity.
    + reflexivity.
    + reflexivity.
    + reflexivity.
    + eapply validates_cons; [reflexivity|reflexivity|].
      eapply validates_cons; [reflexivity|reflexivity|]. apply validates_nil.
    + rewrite Hz, length_zip, length_fmap, Hlen, Hlen'. reflexivity.
  - unfold Demo.demo_api.
    destruct (Hfull _ _ _ Demo.parts python_hierarchy (Demo.cli false None)
                (Demo.fresh Demo.online) Demo.configured Demo.configured)
      as (ms & -> & _ & Hlen & _).
    + reflexivity.
    + reflexivity.
    + reflexivity.
    + reflexivity.
    + exact Hlen.
Defined.

(** C4, as first worded, fails: with the source out of reach a
    validate-only run returns without a validation result for either
    configured table. *)
Lemma offline_run_has_no_results :
  ~ one_validation_per_table (Demo.cli true None) (Demo.fresh Demo.offline).
Proof.
  intros Hclaim.
  destruct (Hclaim eq_refl _ _ Demo.configured eq_refl eq_refl)
    as (results & Hlen & Hv).
  destruct results as [|r1 [|r2 rest]]; try discriminate Hlen.
  vm_compute in Hv. discriminate Hv.
Qed.

(** ** The connection gate *)

(** C6: when the source connection fails, nothing is done per table and
    the exit status is 1.  For any pipeline, a validate-only run whose
    [connect_to_source_db] returns a false value validates no table, never
    calls [run_migration] and exits with 1.  On the orchestrator of the
    specification a failing connector makes [connect_to_source_db] return
    [False] without raising, and a run in either mode exits with 1 and
    leaves the stores and the recorded results exactly as they were. *)
Theorem connection_failure_aborts :
  (forall W (API : PipelineAPI W) (a : args) (w : W) p w1 active c w2,
      validate_only a = true ->
      CloudMigrationPipeline (config a) w = (Ok p, w1) ->
      active_sources a p = Ok active ->
      connect_to_source_db {| data_sources := active |} w1 = (Ok c, w2) ->
      truthy c = false ->
      exit_status a w = 1 /\
      validations (trace (run a w).2) = [] /\
      migration_calls (trace (run a w).2) = []) /\
  (forall Src Tgt Row (C : Orchestrator.components Src Tgt Row)
          (a : args) (w : Orchestrator.backend Src Tgt),
      is_ok (Orchestrator.connect C (Orchestrator.source w)) = false ->
      (forall p, Orchestrator.connectSource C p w = (Ok (PBool false), w)) /\
      exit_status (PipelineAPI0 := Orchestrator.api C) a w = 1 /\
      world (run (PipelineAPI0 := Orchestrator.api C) a w).2 = w /\
      validations (trace (run (PipelineAPI0 := Orchestrator.api C) a w).2) = []).
Proof.
  split.
  - intros W API a w p w1 active c w2 Hmode Hi Ha Hc Htc.
    destruct (validate_only_gate a w p w1 active c w2) as (He & Hv & _);
      try done.
    by destruct (validate_only_run a w Hmode) as [Hm _].
  - intros Src Tgt Row C a w Hc. split.
    + intros p. by rewrite connect_source_result, Hc.
    + by apply unreachable_run.
Qed.

(** C6 at work: the source out of reach, in validate-only and in
    full-migration mode. *)
Lemma connection_failure_aborts_witness :
  exit_status (Demo.cli true None) (Demo.fresh Demo.offline) = 1 /\
  exit_status (Demo.cli false None) (Demo.fresh Demo.offline) = 1 /\
  world (run (Demo.cli false None) (Demo.fresh Demo.offline)).2
  = Demo.fresh Demo.offline.
Proof.
  destruct connection_failure_aborts as [Hany Hspec]. split.
  - refine (proj1 (Hany _ _ (Demo.cli true None) (Demo.fresh Demo.offline)
                     {| data_sources := Demo.configured |}
                     (Demo.fresh Demo.offline) Demo.configured (PBool false)
                     (Demo.fresh Demo.offline) _ _ _ _ _)); reflexivity.
  - destruct (Hspec _ _ _ Demo.parts (Demo.cli false None)
                (Demo.fresh Demo.offline)) as (_ & He & Hw & _).
    + reflexivity.
    + split; [exact He|exact Hw].
Defined.

(** ** An unmatched filter *)

(** C8, as amended: when names are given and none of them is the table of
    a configured entry, the active list is empty; a validate-only run that
    establishes the source connection then validates nothing and exits
    with 0. *)
Theorem unmatched_filter_validates_nothing
    {W} `{!PipelineAPI W} (a : args) (w : W) p w1 :
  CloudMigrationPipeline (config a) w = (Ok p, w1) ->
  tables_given a = true ->
  Forall (fun s : dict => is_Some (s !! "table")) (data_sources p) ->
  (forall s, s ∈ data_sources p -> ~ table_named (table_names a) s) ->
  active_sources a p = Ok [] /\
  (validate_only a = true ->
   forall c w2,
     connect_to_source_db {| data_sources := [] |} w1 = (Ok c, w2) ->
     truthy c = true ->
     exit_status a w = 0 /\ validations (trace (run a w).2) = []).
Proof.
  intros Hi Hgiven Hnamed Hnone.
  assert (Ha : active_sources a p = Ok []).
  { unfold active_sources. rewrite Hgiven.
    rewrite filter_sources_intersection by done.
    by rewrite intersection_empty. }
  split; [done|]. intros Hmode c w2 Hc Htc. split.
  - apply exit_status_outcomes. exists p, w1, []. rewrite Hmode.
    do 2 (split; [done|]). exists c, w2, [], w2.
    repeat split; [done|done|constructor|constructor].
  - destruct (validate_only_results a w p w1 [] c w2 [] w2) as [Hv _];
      try done. constructor.
Qed.

(** C8 at work: a table name the configuration does not know, with the
    source within reach. *)
Lemma unmatched_filter_validates_nothing_witness :
  let a := Demo.cli true (Some ["payments"]) in
  active_sources a {| data_sources := Demo.configured |} = Ok [] /\
  exit_status a (Demo.fresh Demo.online) = 0.
Proof.
  intros a.
  destruct (unmatched_filter_validates_nothing a (Demo.fresh Demo.online)
              {| data_sources := Demo.configured |} (Demo.fresh Demo.online))
    as [Hactive Hexit].
  - reflexivity.
  - reflexivity.
  - repeat constructor; eexists; reflexivity.
  - apply Forall_forall. refine (bool_decide_unpack _ _). vm_compute. exact I.
  - split; [exact Hactive|].
    refine (proj1 (Hexit eq_refl (PBool true) _ _ _)); reflexivity.
Defined.

(** C8, as first worded, fails: the same unmatched name with the source out
    of reach stops at the connection gate with exit status 1. *)
Lemma unmatched_filter_offline_exits_one :
  ~ unmatched_filter_exits_zero
      (Demo.cli true (Some ["payments"])) (Demo.fresh Demo.offline).
Proof.
  intros Hclaim.
  destruct (Hclaim {| data_sources := Demo.configured |}
              (Demo.fresh Demo.offline)) as [_ Hexit].
  - reflexivity.
  - reflexivity.
  - apply Forall_forall. refine (bool_decide_unpack _ _). vm_compute. exact I.
  - specialize (Hexit eq_refl). vm_compute in Hexit. discriminate Hexit.
Qed.

(** ** Per-table isolation *)

Section Isolation.
Import Orchestrator.
Context {Src Tgt Row : Type} (C : components Src Tgt Row).

(** C5: in a full migration, a table whose extraction, transform or load
    raises gets exactly one migration result, with status [failed] and the
    error as its detail; the tables before it keep their results, the
    tables after it are migrated and validated as a run over them alone
    would, from the target the failed table left; [run_migration] returns
    [False] instead of raising and records one result per table. *)
Theorem failed_table_is_isolated
    (before : list dict) (s : dict) (after : list dict)
    (w : backend Src Tgt) (e : exn) :
  is_ok (connect C (source w)) = true ->
  let src := source w in
  let r1 := migrate_all C before src (target w) in
  etl_raises C s src r1.2 e ->
  let mt := migrate_table C s src r1.2 in
  let r2 := migrate_all C after src mt.2 in
  let results := r1.1 ++ (mt.1, validate C (table_id s) src mt.2) :: r2.1 in
  mr_table mt.1 = table_id s /\
  mr_status mt.1 = failed /\
  error_detail mt.1 = Some e /\
  (migrate_all C (before ++ s :: after) src (target w)).1 = results /\
  length results = length (before ++ s :: after) /\
  runMigration C {| data_sources := before ++ s :: after |} w =
    (Ok (PBool false),
     Backend src r2.2 true
             (migration_results w ++ results.*1)
             (validation_results w ++ results.*2)).
Proof.
  intros Hc src r1 Hraise mt r2 results.
  destruct (migrate_table_raises C s src r1.2 e Hraise) as (Ht & Hs & He).
  fold mt in Ht, Hs, He.
  assert (Hall : migrate_all C (before ++ s :: after) src (target w)
                 = (results, r2.2)).
  { rewrite migrate_all_app. cbn zeta. by rewrite migrate_all_cons. }
  repeat (split; [done|]). split; [by rewrite Hall|]. split.
  - unfold results, r1, r2. rewrite !length_app. cbn [length].
    destruct (migrate_all_tables C before src (target w)) as [_ ->].
    destruct (migrate_all_tables C after src mt.2) as [_ ->]. done.
  - rewrite run_all_connected by done. cbn [data_sources]. fold src.
    rewrite Hall. cbn [fst snd]. do 3 f_equal.
    unfold results, overall. rewrite forallb_app. cbn [forallb].
    unfold table_ok at 2. cbn [fst snd]. rewrite Hs.
    rewrite bool_decide_false by done. cbn. apply andb_false_r.
Qed.

End Isolation.

(** C5 at work: [orders] is not in the source, so its extraction fails;
    [users], after it, is migrated all the same, and the run returns
    [False]. *)
Lemma failed_table_is_isolated_witness :
  let w := Demo.fresh Demo.online in
  let r := Orchestrator.runMigration Demo.parts
             {| data_sources := Demo.configured |} w in
  Orchestrator.etl_raises Demo.parts (Demo.entry "orders") Demo.online ∅
    (Raised "ExtractionError" "orders") /\
  r.1 = Ok (PBool false) /\
  Orchestrator.mr_status <$> Orchestrator.migration_results r.2
  = [Orchestrator.failed; Orchestrator.succeeded] /\
  Orchestrator.rows_migrated <$> Orchestrator.migration_results r.2
  = [0%nat; 3%nat].
Proof.
  intros w r.
  assert (Hraise : Orchestrator.etl_raises Demo.parts (Demo.entry "orders")
                     Demo.online ∅ (Raised "ExtractionError" "orders"))
    by (left; reflexivity).
  split; [exact Hraise|].
  destruct (failed_table_is_isolated Demo.parts [] (Demo.entry "orders")
              [Demo.entry "users"] w (Raised "ExtractionError" "orders")
              eq_refl Hraise)
    as (_ & _ & _ & _ & _ & Hrun).
  subst r. change Demo.configured
    with ([] ++ Demo.entry "orders" :: [Demo.entry "users"]).
  rewrite Hrun. repeat split; reflexivity.
Defined.

(** ** Further properties of [main] *)

Section Runs.
Context {W : Type} `{!PipelineAPI W}.
Implicit Types (a : args) (p : pipeline) (st : state W) (w : W).

(** X1: when the constructor of the pipeline raises, the run makes that
    one call and no other.  If the exception derives from [Exception], the
    error is logged with its text and [main] returns 1; if it does not, it
    leaves [main] and nothing is logged after the start record. *)
Theorem constructor_failure_run (hier : string -> bool) a w e w1 :
  CloudMigrationPipeline (config a) w = (Raise e, w1) ->
  run_py hier a w =
  if is_exception hier e then
    (Ok 1,
     State w1
       [Log INFO ("Starting migration with config file: " +:+ config a);
        Init (config a) (Raise e);
        Log ERROR ("Migration failed with error: " +:+ exn_str e)])
  else
    (Raise e,
     State w1
       [Log INFO ("Starting migration with config file: " +:+ config a);
        Init (config a) (Raise e)]).
Proof.
  intros Hi. unfold run_py. rewrite main_py_unfold, main_body_unfold.
  cbn [world]. rewrite Hi. by destruct (is_exception hier e).
Qed.

(** X2: when table names are given and a configured entry has no ['table']
    key, the comprehension of the filter raises [KeyError] and the run
    returns 1 right after the constructor, in either mode: no connection is
    attempted, nothing is validated or migrated. *)
Theorem filter_keyerror_run a w p w1 :
  CloudMigrationPipeline (config a) w = (Ok p, w1) ->
  tables_given a = true ->
  Exists (fun s : dict => s !! "table" = None) (data_sources p) ->
  run a w =
  (Ok 1,
   State w1
     [Log INFO ("Starting migration with config file: " +:+ config a);
      Init (config a) (Ok p);
      Log ERROR "Migration failed with error: 'table'"]).
Proof.
  intros Hi Hgiven Hex. unfold run. rewrite main_unfold, main_body_unfold.
  cbn [world]. rewrite Hi. unfold active_sources. rewrite Hgiven.
  by rewrite filter_sources_raises.
Qed.


(** X5: the validation loop has no per-table isolation.  When
    [validate_migration] raises for a table, the tables before it have
    been validated, the tables after it never are, and the run ends in the
    world that call left.  If the exception derives from [Exception],
    [main] logs it and returns 1; if it does not, it leaves [main] and the
    failed call is the last event of the run. *)
Theorem validation_stops_at_raising_table
    (hier : string -> bool) a w p w1 c w2 before s after results w3 t e w4 :
  validate_only a = true ->
  CloudMigrationPipeline (config a) w = (Ok p, w1) ->
  active_sources a p = Ok (before ++ s :: after) ->
  let pl := {| data_sources := before ++ s :: after |} in
  connect_to_source_db pl w1 = (Ok c, w2) ->
  truthy c = true ->
  validates pl before w2 results w3 ->
  s !! "table" = Some t ->
  validate_migration pl t w3 = (Raise e, w4) ->
  exit_code_py hier a w = (if is_exception hier e then Some 1 else None) /\
  validations (trace (run_py hier a w).2)
  = (prod_map id Ok <$> results) ++ [(t, Raise e)] /\
  world (run_py hier a w).2 = w4 /\
  last (trace (run_py hier a w).2)
  = Some (if is_exception hier e
          then Log ERROR ("Migration failed with error: " +:+ exn_str e)
          else Validate t (Raise e)).
Proof.
  intros Hmode Hi Ha pl Hc Htc Hvs Ht Hv. unfold exit_code_py, run_py.
  rewrite main_py_unfold, main_body_unfold. cbn [world trace].
  rewrite Hi, Ha, Hmode. cbn zeta. fold pl. rewrite Hc, Htc, bind_step.
  erewrite validate_loop_raises by done.
  destruct (filtered_log_quiet a) as [Hq _]. unfold started. cbn [trace].
  destruct (is_exception hier e); cbn [fst snd world trace].
  - rewrite !validations_app, Hq, validations_loop_events, last_snoc. cbn.
    by rewrite app_nil_r.
  - split; [done|]. split; [|split; [done|]].
    + rewrite !validations_app, Hq, validations_loop_events. done.
    + change [Log INFO ("Validating table: " +:+ py_str t);
              Validate t (Raise e)]
        with ([Log INFO ("Validating table: " +:+ py_str t)]
              ++ [Validate t (Raise e)]).
      by rewrite !app_assoc, last_snoc.
Qed.

(** X6: without a filter, an active entry that has no ['table'] key ends
    the validation loop with [KeyError]: the entries before it have been
    validated, it and the entries after it are not, and the run returns 1. *)
Theorem validation_stops_at_entry_without_table
    a w p w1 c w2 before s after results w3 :
  validate_only a = true ->
  CloudMigrationPipeline (config a) w = (Ok p, w1) ->
  active_sources a p = Ok (before ++ s :: after) ->
  let pl := {| data_sources := before ++ s :: after |} in
  connect_to_source_db pl w1 = (Ok c, w2) ->
  truthy c = true ->
  validates pl before w2 results w3 ->
  s !! "table" = None ->
  exit_status a w = 1 /\
  validations (trace (run a w).2) = prod_map id Ok <$> results /\
  world (run a w).2 = w3 /\
  last (trace (run a w).2)
  = Some (Log ERROR "Migration failed with error: 'table'").
Proof.
  intros Hmode Hi Ha pl Hc Htc Hvs Ht. unfold exit_status, run.
  rewrite main_unfold, main_body_unfold. cbn [world trace].
  rewrite Hi, Ha, Hmode. cbn zeta. fold pl. rewrite Hc, Htc, bind_step.
  erewrite validate_loop_keyerror by done. cbn [fst snd world trace].
  destruct (filtered_log_quiet a) as [Hq _]. unfold started. cbn [trace].
  rewrite !validations_app, Hq, validations_loop_events, last_snoc. cbn.
  by rewrite app_nil_r.
Qed.

(** X3: the calls of every run follow one protocol.  The constructor is
    called first and exactly once, with the configured path.  After it, a
    validate-only run makes at most one connection attempt and validates
    only after a connection value that is true; a full-migration run makes
    at most one call, of [run_migration].  Validation and migration never
    mix, and nothing is called before the pipeline is built. *)
Theorem call_protocol a w :
  exists rest,
    calls (trace (run a w).2)
    = Init (config a) (CloudMigrationPipeline (config a) w).1 :: rest /\
    follows_protocol a rest.
Proof. apply (run_shape a w). Qed.



End Runs.

(** ** The failure report (lines 75-76) *)

Section Report.
Context {W : Type}.
Implicit Types (st : state W).

(** X7: when some validation did not pass and every result that did not
    pass carries a string ['table_name'], the verdict is 1 and its error
    record lists exactly the tables that did not pass, in the order they
    were validated, separated by a comma and a space.  The names of the
    results that passed are never read. *)
Theorem failure_report_lists_failing_tables (results : list dict) st :
  all_passed results = false ->
  Forall (fun r : dict =>
            passed r = false -> exists n, r !! "table_name" = Some (PStr n))
         results ->
  validation_verdict results st =
  (Ok 1,
   State (world st)
     (trace st ++ [Log ERROR ("Validation failed for tables: "
                              +:+ String.concat ", "
                                    (failing_table_names results))])).
Proof.
  intros Hall Hnamed. rewrite validation_verdict_unfold, Hall.
  rewrite failed_tables_strings by done. unfold py_join.
  by rewrite py_join_from_concat.
Qed.

(** X8: when a result that did not pass has no ['table_name'] key, building
    the list of failed tables raises [KeyError] and the verdict logs
    nothing: the record that names the failed tables is lost, whatever the
    results after it hold. *)
Theorem failure_report_lost_without_name
    (before : list dict) (r : dict) (after : list dict) st :
  Forall (fun r' : dict => passed r' = false -> is_Some (r' !! "table_name"))
         before ->
  passed r = false ->
  r !! "table_name" = None ->
  validation_verdict (before ++ r :: after) st
  = (Raise (KeyError "table_name"), st).
Proof.
  intros Hbefore Hp Hr. rewrite validation_verdict_unfold.
  rewrite (all_passed_false (before ++ r :: after) r); [|set_solver|done].
  by rewrite failed_tables_keyerror.
Qed.

End Report.

(** ** The filter as an operation on lists (line 53) *)

(** X10: the filter reads the given names as a set: two lists with the
    same names, in any order and with any repetition, select the same
    entries. *)
Theorem filter_names_as_set (sources : list dict) (names1 names2 : list string) :
  (forall n, n ∈ names1 <-> n ∈ names2) ->
  filter_sources sources names1 = filter_sources sources names2.
Proof.
  intros Hsame. induction sources as [|s rest IH]; [done|].
  cbn. destruct (getitem s "table") as [t|e]; [|done].
  rewrite IH. by rewrite (py_in_same_names t names1 names2).
Qed.

(** X11: filtering what a filter kept.  With the names of a second list
    the result is what one filter by the names common to both lists
    keeps; with the same names again nothing changes. *)
Theorem filter_twice (sources kept : list dict) (names1 names2 : list string) :
  filter_sources sources names1 = Ok kept ->
  filter_sources kept names2
  = filter_sources sources (filter (fun n => n ∈ names2) names1) /\
  filter_sources kept names1 = Ok kept.
Proof.
  intros Hkept.
  assert (Hkeys : Forall (fun s : dict => is_Some (s !! "table")) sources).
  { apply Forall_forall. intros s Hs.
    destruct (s !! "table") eqn:Ht; [done|]. exfalso.
    assert (Hex : Exists (fun s : dict => s !! "table" = None) sources)
      by (apply Exists_exists; eauto).
    apply filter_sources_raises with (names := names1) in Hex. congruence. }
  rewrite filter_sources_intersection in Hkept by done.
  injection Hkept as <-.
  assert (Hkeys' : Forall (fun s : dict => is_Some (s !! "table"))
                     (intersection_in_order sources names1)).
  { unfold intersection_in_order. apply Forall_forall.
    intros s [_ Hs]%list_elem_of_filter.
    by apply (proj1 (Forall_forall _ _) Hkeys). }
  rewrite !filter_sources_intersection by done.
  unfold intersection_in_order. rewrite !list_filter_filter. split; f_equal.
  - apply list_filter_iff. intros s. unfold table_named.
    destruct (s !! "table") as [[| | |n]|]; try tauto.
    rewrite list_elem_of_filter. tauto.
  - apply list_filter_iff. tauto.
Qed.

(** ** The log file (lines 28-29) *)

(** X13: the name of the log file determines the reading of the local
    clock it was made from: two well-formed readings of [datetime.now()]
    give the same file name only when they agree in year, month, day, hour,
    minute and second.  The reading is wall-clock time, so this says
    nothing of how far apart two runs are in real time. *)
Theorem log_file_injective (d1 d2 : LogFile.datetime) :
  LogFile.well_formed d1 ->
  LogFile.well_formed d2 ->
  LogFile.log_file d1 = LogFile.log_file d2 ->
  d1 = d2.
Proof.
  destruct d1 as [y1 mo1 day1 h1 mi1 s1], d2 as [y2 mo2 day2 h2 mi2 s2].
  unfold LogFile.well_formed. cbn [LogFile.year LogFile.month LogFile.day
    LogFile.hour LogFile.minute LogFile.second].
  intros (Hy1 & Hmo1 & Hd1 & Hh1 & Hmi1 & Hs1)
         (Hy2 & Hmo2 & Hd2 & Hh2 & Hmi2 & Hs2) Heq.
  unfold LogFile.log_file, LogFile.path_join, LogFile.log_dir,
    LogFile.strftime in Heq.
  cbn [LogFile.year LogFile.month LogFile.day LogFile.hour LogFile.minute
       LogFile.second LogFile.pad2 LogFile.pad4 String.app] in Heq.
  injection Heq as Y3 Y2 Y1 Y0 M1 M0 D1 D0 H1 H0 I1 I0 S1 S0.
  f_equal.
  - apply pad4_inj; [lia|lia|]. unfold LogFile.pad4. congruence.
  - apply pad2_inj; [lia|lia|]. unfold LogFile.pad2. congruence.
  - apply pad2_inj; [lia|lia|]. unfold LogFile.pad2. congruence.
  - apply pad2_inj; [lia|lia|]. unfold LogFile.pad2. congruence.
  - apply pad2_inj; [lia|lia|]. unfold LogFile.pad2. congruence.
  - apply pad2_inj; [lia|lia|]. unfold LogFile.pad2. congruence.
Qed.

(** ** The further properties at work *)

(** X1 at work: a configuration that cannot be read, and a start that is
    interrupted. *)
Lemma constructor_failure_run_witness :
  run_py (PipelineAPI0 := Stub.double Cases.broken_config) python_hierarchy
      (Demo.cli false None) 0%nat
  = (Ok 1,
     State 1%nat
       [Log INFO "Starting migration with config file: config.ini";
        Init "config.ini" (Raise (Raised "ConfigError" "no such file"));
        Log ERROR "Migration failed with error: no such file"]) /\
  (run_py (PipelineAPI0 := Stub.double Interrupts.at_start) python_hierarchy
      (Demo.cli false None) 0%nat).1
  = Raise (Raised "KeyboardInterrupt" EmptyString).
Proof.
  split.
  - rewrite (constructor_failure_run
               (PipelineAPI0 := Stub.double Cases.broken_config)
               python_hierarchy (Demo.cli false None) 0%nat
               (Raised "ConfigError" "no such file") 1%nat);
      reflexivity.
  - rewrite (constructor_failure_run
               (PipelineAPI0 := Stub.double Interrupts.at_start)
               python_hierarchy (Demo.cli false None) 0%nat
               (Raised "KeyboardInterrupt" EmptyString) 1%nat);
      reflexivity.
Defined.

(** X2 at work: a filter over a configuration with an entry without table. *)
Lemma filter_keyerror_run_witness :
  exit_status (PipelineAPI0 := Stub.double Cases.nameless_entry)
    (Demo.cli true (Some ["users"])) 0%nat = 1 /\
  world (run (PipelineAPI0 := Stub.double Cases.nameless_entry)
           (Demo.cli true (Some ["users"])) 0%nat).2 = 1%nat.
Proof.
  unfold exit_status.
  rewrite (filter_keyerror_run (PipelineAPI0 := Stub.double Cases.nameless_entry)
             (Demo.cli true (Some ["users"])) 0%nat
             {| data_sources := [Demo.entry "users";
                                 {[ "target" := PStr "orders" ]}] |} 1%nat).
  - split; reflexivity.
  - reflexivity.
  - reflexivity.
  - apply Exists_cons_tl, Exists_cons_hd. reflexivity.
Defined.


(** X5 at work: of three tables the second cannot be validated; the third
    never is. *)
Lemma validation_stops_at_raising_table_witness :
  validated_tables
    (trace (run_py (PipelineAPI0 := Stub.double Cases.failing_validator)
              python_hierarchy (Demo.cli true None) 0%nat).2)
  = [PStr "users"; PStr "orders"].
Proof.
  destruct (validation_stops_at_raising_table
              (PipelineAPI0 := Stub.double Cases.failing_validator)
              python_hierarchy (Demo.cli true None) 0%nat
              {| data_sources := [Demo.entry "users"; Demo.entry "orders";
                                  Demo.entry "items"] |}
              1%nat (PBool true) 2%nat
              [Demo.entry "users"] (Demo.entry "orders") [Demo.entry "items"]
              [(PStr "users", Stub.verdict "users" true)] 3%nat
              (PStr "orders") (Raised "ValidationError" "timeout") 4%nat)
    as (_ & Hv & _).
  - reflexivity.
  - reflexivity.
  - reflexivity.
  - reflexivity.
  - reflexivity.
  - eapply validates_cons; [reflexivity|reflexivity|apply validates_nil].
  - reflexivity.
  - reflexivity.
  - unfold validated_tables. rewrite Hv. reflexivity.
Defined.

(** X6 at work: the second entry has no table; only the first is
    validated. *)
Lemma validation_stops_at_entry_without_table_witness :
  validated_tables
    (trace (run (PipelineAPI0 := Stub.double Cases.nameless_entry)
              (Demo.cli true None) 0%nat).2)
  = [PStr "users"].
Proof.
  destruct (validation_stops_at_entry_without_table
              (PipelineAPI0 := Stub.double Cases.nameless_entry)
              (Demo.cli true None) 0%nat
              {| data_sources := [Demo.entry "users";
                                  {[ "target" := PStr "orders" ]}] |}
              1%nat (PBool true) 2%nat
              [Demo.entry "users"] {[ "target" := PStr "orders" ]} []
              [(PStr "users", Stub.verdict "users" true)] 3%nat)
    as (_ & Hv & _).
  - reflexivity.
  - reflexivity.
  - reflexivity.
  - reflexivity.
  - reflexivity.
  - eapply validates_cons; [reflexivity|reflexivity|apply validates_nil].
  - reflexivity.
  - unfold validated_tables. rewrite Hv. reflexivity.
Defined.

(** X7 at work: of three results the first and the last did not pass. *)
Lemma failure_report_lists_failing_tables_witness :
  validation_verdict
    [Stub.verdict "orders" false; Stub.verdict "users" true;
     Stub.verdict "items" false] (State tt [])
  = (Ok 1, State tt [Log ERROR "Validation failed for tables: orders, items"]).
Proof.
  apply (failure_report_lists_failing_tables
           [Stub.verdict "orders" false; Stub.verdict "users" true;
            Stub.verdict "items" false] (State tt [])).
  - reflexivity.
  - repeat constructor; intros _; eexists; reflexivity.
Defined.

(** X8 at work: the second result failed and has no name. *)
Lemma failure_report_lost_without_name_witness :
  validation_verdict
    [Stub.verdict "orders" false; {[ "validation_passed" := PBool false ]};
     Stub.verdict "items" false] (State tt [])
  = (Raise (KeyError "table_name"), State tt []).
Proof.
  apply (failure_report_lost_without_name
           [Stub.verdict "orders" false]
           {[ "validation_passed" := PBool false ]}
           [Stub.verdict "items" false] (State tt [])).
  - repeat constructor; intros _; eexists; reflexivity.
  - reflexivity.
  - reflexivity.
Defined.

(** X10 at work: a name given twice and the names in another order. *)
Lemma filter_names_as_set_witness :
  filter_sources Demo.configured ["users"; "orders"]
  = filter_sources Demo.configured ["orders"; "users"; "orders"].
Proof.
  apply filter_names_as_set. intros n.
  rewrite !elem_of_cons, !elem_of_nil. tauto.
Defined.

(** X11 at work: [users] and [orders], then [orders] and [items]. *)
Lemma filter_twice_witness :
  filter_sources Demo.configured ["orders"; "items"]
  = filter_sources Demo.configured ["orders"].
Proof.
  refine (proj1 (filter_twice Demo.configured Demo.configured
                   ["users"; "orders"] ["orders"; "items"] _)).
  reflexivity.
Defined.


(** X13 at work: two starts one second apart. *)
Lemma log_file_injective_witness :
  LogFile.log_file Cases.morning <> LogFile.log_file Cases.a_second_later.
Proof.
  intros Heq. apply log_file_injective in Heq.
  - discriminate Heq.
  - unfold LogFile.well_formed. cbn. lia.
  - unfold LogFile.well_formed. cbn. lia.
Defined.
